(** * License service of Redpanda Connect: loading and validating a license

    A shallow embedding of [package license] (service construction, the
    credential locator [readLicense], the verifier [validateLicense] and the
    policy in [readAndValidateLicense]) together with the parts of the Go
    standard library on which its behaviour depends: [bytes.TrimSpace],
    [bytes.Split] and [encoding/base64] are modelled concretely; the
    cryptographic and parsing packages ([encoding/pem], [crypto/x509],
    [crypto/sha256], [crypto/rsa], [encoding/json]) are taken as an
    interface, as are the file system and the wall clock. *)

From Stdlib Require Import ZArith List Bool Lia.
From Stdlib.Strings Require Import String Byte.
From Stdlib Require Import Btauto.
From coqutil Require Import Z.bitblast.
Import ListNotations.

Local Open Scope string_scope.
Local Open Scope list_scope.
Local Open Scope Z_scope.

(** ** Go values *)

(** A Go [error] value.  [Errorf fmt e] is [fmt.Errorf(fmt, e)] with a
    single [%w] verb, [ErrorsNew msg] is [errors.New(msg)]. *)
Inductive error : Type :=
| ErrorsNew (msg : string)
| Errorf (format : string) (wrapped : error)
| CorruptInputError (offset : Z)          (* encoding/base64 *)
| PathError (op path : string) (errno : Z) (* os: *fs.PathError over a syscall.Errno *)
| LibError (pkg msg : string)              (* an error of crypto/x509, crypto/rsa, encoding/json *)
| Expired (expiry : Z).                    (* the condition raised by CheckExpiry *)

(** The numeric value of a byte, and the conversion [byte(v)] of an
    unsigned integer, which keeps the low eight bits. *)
Definition byte_val (b : byte) : Z := Z.of_N (Byte.to_N b).

Definition byte_of_Z (v : Z) : byte :=
  match Byte.of_N (Z.to_N (Z.land v 255)) with
  | Some b => b
  | None => x00
  end.

Definition bytes_of (s : string) : list byte := list_byte_of_string s.

(** ** Package [bytes] *)

Module bytes.

(** [asciiSpace]: the bytes ['\t'], ['\n'], ['\v'], ['\f'], ['\r'], [' ']. *)
Definition asciiSpace (c : byte) : bool :=
  match c with
  | x09 | x0a | x0b | x0c | x0d | x20 => true
  | _ => false
  end.

Definition RuneSelf : Z := 128.

Section TrimSpace.
(** [TrimFunc(s, unicode.IsSpace)], the path taken as soon as a byte
    outside ASCII is met; it needs UTF-8 decoding and is left to the
    caller. *)
Variable trimUnicodeSpace : list byte -> list byte.

(** The second loop of [TrimSpace], scanning [s[start:stop]] from its
    end; [rs] is that slice reversed. *)
Fixpoint trimSpaceBack (rs : list byte) : list byte :=
  match rs with
  | [] => []
  | c :: rs' =>
      if RuneSelf <=? byte_val c then trimUnicodeSpace (rev rs)
      else if asciiSpace c then trimSpaceBack rs'
      else rev rs
  end.

(** The first loop of [TrimSpace], scanning from the start. *)
Fixpoint TrimSpace (s : list byte) : list byte :=
  match s with
  | [] => []
  | c :: s' =>
      if RuneSelf <=? byte_val c then trimUnicodeSpace s
      else if asciiSpace c then TrimSpace s'
      else trimSpaceBack (rev s)
  end.
End TrimSpace.

(** [Split(s, sep)] for a separator of one byte: the subslices between
    the occurrences of [sep]; an input without separator gives one part. *)
Fixpoint Split (s : list byte) (sep : byte) : list (list byte) :=
  match s with
  | [] => [[]]
  | c :: s' =>
      if Byte.eqb c sep then [] :: Split s' sep
      else match Split s' sep with
           | part :: parts => (c :: part) :: parts
           | [] => [[c]]
           end
  end.

End bytes.

(** ** Package [encoding/base64] *)

Module base64.

(** An [Encoding]: the 64-byte alphabet, the padding character
    ([None] is [NoPadding]) and the strict flag. *)
Record Encoding : Type := {
  encode : list byte;
  padChar : option byte;
  strict : bool
}.

Definition encodeStd : string :=
  "ABCDEFGHIJKLMNOPQRSTUVWXYZabcdefghijklmnopqrstuvwxyz0123456789+/".
Definition encodeURL : string :=
  "ABCDEFGHIJKLMNOPQRSTUVWXYZabcdefghijklmnopqrstuvwxyz0123456789-_".

Definition StdPadding : byte := "="%byte.

Definition NewEncoding (encoder : string) : Encoding :=
  {| encode := bytes_of encoder; padChar := Some StdPadding; strict := false |}.

Definition StdEncoding : Encoding := NewEncoding encodeStd.
Definition URLEncoding : Encoding := NewEncoding encodeURL.

(** [enc.decodeMap[c]]: the index of [c] in the alphabet, [0xff] for a
    byte that is not in it. *)
Fixpoint indexByte (c : byte) (l : list byte) (i : Z) : Z :=
  match l with
  | [] => 255
  | x :: l' => if Byte.eqb x c then i else indexByte c l' (i + 1)
  end.

Definition decodeMap (enc : Encoding) (c : byte) : Z := indexByte c (encode enc) 0.

(** [enc.encode[i]] *)
Definition encodeAt (enc : Encoding) (i : Z) : byte := nth (Z.to_nat i) (encode enc) x00.

Definition padding (enc : Encoding) : list byte :=
  match padChar enc with Some p => [p] | None => [] end.

(** [Encode]: three source bytes give four characters; a remainder of
    one or two bytes gives two or three characters and the padding. *)
Fixpoint Encode (enc : Encoding) (src : list byte) : list byte :=
  match src with
  | [] => []
  | [b0] =>
      let val := Z.shiftl (byte_val b0) 16 in
      [encodeAt enc (Z.land (Z.shiftr val 18) 63);
       encodeAt enc (Z.land (Z.shiftr val 12) 63)]
      ++ padding enc ++ padding enc
  | [b0; b1] =>
      let val := Z.lor (Z.shiftl (byte_val b0) 16) (Z.shiftl (byte_val b1) 8) in
      [encodeAt enc (Z.land (Z.shiftr val 18) 63);
       encodeAt enc (Z.land (Z.shiftr val 12) 63);
       encodeAt enc (Z.land (Z.shiftr val 6) 63)]
      ++ padding enc
  | b0 :: b1 :: b2 :: rest =>
      let val := Z.lor (Z.lor (Z.shiftl (byte_val b0) 16) (Z.shiftl (byte_val b1) 8))
                       (byte_val b2) in
      encodeAt enc (Z.land (Z.shiftr val 18) 63)
      :: encodeAt enc (Z.land (Z.shiftr val 12) 63)
      :: encodeAt enc (Z.land (Z.shiftr val 6) 63)
      :: encodeAt enc (Z.land val 63)
      :: Encode enc rest
  end.

(** [rune(c) == enc.padChar] *)
Definition isPad (enc : Encoding) (c : byte) : bool :=
  match padChar enc with Some p => Byte.eqb c p | None => false end.

(** [enc.padChar != NoPadding] *)
Definition hasPadding (enc : Encoding) : bool :=
  match padChar enc with Some _ => true | None => false end.

Definition isNewline (c : byte) : bool :=
  match c with x0a | x0d => true | _ => false end.

(** [for si < len(src) && (src[si] == '\n' || src[si] == '\r') { si++ }] *)
Fixpoint skipNewlines (src : list byte) (si : Z) : list byte * Z :=
  match src with
  | c :: src' => if isNewline c then skipNewlines src' (si + 1) else (src, si)
  | [] => (src, si)
  end.

(** The end of [decodeQuantum]: the sextets read ([dbuf], missing ones
    are zero) are packed into [val] and the first [dlen - 1] bytes of it
    are produced; [err] is the error already found (trailing garbage). *)
Definition convertQuantum (enc : Encoding) (dbuf : list Z) (dlen si : Z)
           (err : option error) : list byte * option error :=
  let val := Z.lor (Z.lor (Z.lor (Z.shiftl (nth 0 dbuf 0) 18) (Z.shiftl (nth 1 dbuf 0) 12))
                          (Z.shiftl (nth 2 dbuf 0) 6))
                   (nth 3 dbuf 0) in
  let d2 := byte_of_Z (Z.shiftr val 0) in
  let d1 := byte_of_Z (Z.shiftr val 8) in
  let d0 := byte_of_Z (Z.shiftr val 16) in
  if dlen =? 4 then ([d0; d1; d2], err)
  else if dlen =? 3 then
    if strict enc && negb (byte_val d2 =? 0) then ([], Some (CorruptInputError (si - 1)))
    else ([d0; d1], err)
  else if dlen =? 2 then
    if strict enc && (negb (byte_val d1 =? 0) || negb (byte_val d2 =? 0))
    then ([], Some (CorruptInputError (si - 2)))
    else ([d0], err)
  else ([], err).

(** The padding branch of [decodeQuantum], entered after a padding
    character was read at index [j] of the quantum; [src] is what follows
    it, [si] its offset and [len] the length of the whole input. *)
Definition decodePadding (enc : Encoding) (dbuf : list Z) (j : Z)
           (src : list byte) (si len : Z) : list byte * option error :=
  if j <? 2 then ([], Some (CorruptInputError (si - 1)))
  else
    let after :=
      if j =? 2 then
        let '(src1, si1) := skipNewlines src si in
        match src1 with
        | [] => inl (CorruptInputError len)
        | c :: src2 =>
            if isPad enc c then inr (src2, si1 + 1)
            else inl (CorruptInputError (si1 - 1))
        end
      else inr (src, si) in
    match after with
    | inl e => ([], Some e)
    | inr (src1, si1) =>
        let '(src2, si2) := skipNewlines src1 si1 in
        let err := match src2 with
                   | [] => None
                   | _ :: _ => Some (CorruptInputError si2)
                   end in
        convertQuantum enc dbuf j si2 err
    end.

(** [Decode]: the loop over the quanta with the loop of [decodeQuantum]
    inside it, as one recursion over the input.  [dbuf] holds the
    sextets of the current quantum ([j] is its length), [si] is the
    offset of [src] in the input and [len] the input's length.  The
    result is [dbuf[:n]] and the error. *)
Fixpoint decodeLoop (enc : Encoding) (len : Z) (src : list byte) (si : Z)
         (dbuf : list Z) {struct src} : list byte * option error :=
  let j := Z.of_nat (List.length dbuf) in
  match src with
  | [] =>
      if j =? 0 then ([], None)
      else if (j =? 1) || hasPadding enc
           then ([], Some (CorruptInputError (si - j)))
           else convertQuantum enc dbuf j si None
  | c :: src' =>
      let si := si + 1 in
      let out := decodeMap enc c in
      if negb (out =? 255) then
        let dbuf := dbuf ++ [out] in
        if j + 1 <? 4 then decodeLoop enc len src' si dbuf
        else
          match convertQuantum enc dbuf 4 si None with
          | (q, Some e) => (q, Some e)
          | (q, None) =>
              let '(rest, err) := decodeLoop enc len src' si [] in
              (q ++ rest, err)
          end
      else if isNewline c then decodeLoop enc len src' si dbuf
      else if negb (isPad enc c) then ([], Some (CorruptInputError (si - 1)))
      else decodePadding enc dbuf j src' si len
  end.

Definition Decode (enc : Encoding) (src : list byte) : list byte * option error :=
  decodeLoop enc (Z.of_nat (List.length src)) src 0 [].

Definition DecodeString (enc : Encoding) (s : string) : list byte * option error :=
  Decode enc (bytes_of s).

Definition EncodeToString (enc : Encoding) (src : list byte) : string :=
  string_of_list_byte (Encode enc src).

End base64.

(** ** The rest of the standard library, the embedded key and the host *)

Module pem.
(** [pem.Block] *)
Record Block : Type := {
  Type_ : string;
  Headers : list (string * string);
  Bytes : list byte
}.
End pem.

Module rsa.
(** [rsa.PublicKey] *)
Record PublicKey : Type := { N : Z; E : Z }.
End rsa.

(** The dynamic type of the key returned by [x509.ParsePKIXPublicKey]:
    [*rsa.PublicKey], or a key of another algorithm ([*dsa.PublicKey],
    [*ecdsa.PublicKey], [ed25519.PublicKey], [*ecdh.PublicKey]). *)
Inductive anyPublicKey : Type :=
| RSAPublicKey (k : rsa.PublicKey)
| OtherPublicKey (algorithm : string) (raw : list byte).

(** Modelled from the spec: the struct [RedpandaLicense] is declared in a
    file of the package that is not part of the sources at hand; its four
    fields are those of the Entitlement Record (version, organization, type
    and expiry in seconds since the epoch). *)
Record RedpandaLicense : Type := {
  Version : Z;
  Organization : string;
  Type_ : Z;
  Expiry : Z
}.

(** [RedpandaLicense{}] *)
Definition zeroLicense : RedpandaLicense :=
  {| Version := 0; Organization := ""; Type_ := 0; Expiry := 0 |}.

(** What the package takes from outside: library functions, the embedded
    key file, the file system and the clock. *)
Record Env : Type := {
  (** first result of [pem.Decode]: [None] is the nil block returned when
      no well-formed PEM block is found *)
  pem_Decode : list byte -> option pem.Block;
  x509_ParsePKIXPublicKey : list byte -> anyPublicKey + error;
  sha256_Sum256 : list byte -> list byte;
  (** [rsa.VerifyPKCS1v15(pub, crypto.SHA256, hashed, sig)] *)
  rsa_VerifyPKCS1v15 : rsa.PublicKey -> list byte -> list byte -> option error;
  (** [json.Unmarshal(data, &v)]: the value of [v] afterwards, and the error *)
  json_Unmarshal : list byte -> RedpandaLicense -> RedpandaLicense * option error;
  (** [bytes.TrimFunc(s, unicode.IsSpace)] *)
  trimUnicodeSpace : list byte -> list byte;
  (** [time.Unix(sec, 0).Format(time.RFC3339)] *)
  formatRFC3339 : Z -> string;
  (** [typeDisplayName], declared next to [RedpandaLicense] *)
  typeDisplayName : Z -> string;
  (** the contents of [public_key.pem], embedded at build time *)
  licensePublicKeyPem : list byte;
  (** [os.ReadFile] on the file system as it is during the load *)
  os_ReadFile : string -> list byte * option error;
  (** the wall clock: the [n]-th call of [time.Now] since the start, in
      nanoseconds since the epoch *)
  clock : nat -> Z
}.

(** [os.IsNotExist]: the error is a path error over [ENOENT]. *)
Definition ENOENT : Z := 2.
Definition EACCES : Z := 13.

Definition os_IsNotExist (err : error) : bool :=
  match err with
  | PathError _ _ errno => errno =? ENOENT
  | _ => false
  end.

(** ** Package [time] *)

Module time.
(** A [Duration] is a number of nanoseconds, a [Time] the nanoseconds
    since the epoch. *)
Definition Second : Z := 1000000000.
Definition Hour : Z := 3600 * Second.
Definition Add (t d : Z) : Z := t + d.
Definition Unix (t : Z) : Z := t / Second.
End time.

(** ** Effects: the log, the files read, the clock and the host registry *)

Inductive Level : Type := LevelError | LevelWarn | LevelInfo | LevelDebug | LevelTrace.

Inductive FieldValue : Type :=
| FString (s : string)
| FError (e : error).

Record LogEntry : Type := {
  level : Level;
  fields : list (string * FieldValue);
  message : string
}.

(** [Config] *)
Record Config : Type := {
  License : string;
  LicenseFilepath : string;
  customPublicKeyPem : list byte;
  customDefaultLicenseFilepath : string
}.

(** [Service]; [loadedLicense] is the atomic pointer, [None] while nothing
    was stored.  The logger is the one of the resources. *)
Record Service : Type := {
  loadedLicense : option RedpandaLicense;
  conf : Config
}.

(** The state of the host: what was logged, the paths handed to
    [os.ReadFile], the number of clock readings taken, and the license
    service registered in the resources. *)
Record State : Type := {
  logs : list LogEntry;
  reads : list string;
  ticks : nat;
  shared : option Service
}.

Definition initialState : State :=
  {| logs := []; reads := []; ticks := 0; shared := None |}.

(** A Go call returns or panics. *)
Inductive Go (A : Type) : Type :=
| Ret (a : A)
| Panic (reason : string).
Arguments Ret {A} a.
Arguments Panic {A} reason.

Definition M (A : Type) : Type := State -> Go (A * State).

Definition ret {A} (a : A) : M A := fun s => Ret (a, s).

Definition bind {A B} (m : M A) (k : A -> M B) : M B :=
  fun s => match m s with
           | Ret (a, s') => k a s'
           | Panic r => Panic r
           end.

Definition lift {A} (g : Go A) : M A :=
  fun s => match g with
           | Ret a => Ret (a, s)
           | Panic r => Panic r
           end.

Notation "x <- m ;; k" := (bind m (fun x => k))
  (at level 61, m at next level, right associativity).
Notation "' pat <- m ;; k" := (bind m (fun x => match x with pat => k end))
  (at level 61, pat pattern, m at next level, right associativity).
Notation "m ;; k" := (bind m (fun _ => k))
  (at level 61, right associativity).

Definition nilDereference : string :=
  "runtime error: invalid memory address or nil pointer dereference".

(** [logger.With(fields...).<Level>(msg)] *)
Definition logWith (fs : list (string * FieldValue)) (lvl : Level) (msg : string) : M unit :=
  fun s => Ret (tt, {| logs := logs s ++ [{| level := lvl; fields := fs; message := msg |}];
                       reads := reads s; ticks := ticks s; shared := shared s |}).

Definition Debug (msg : string) : M unit := logWith [] LevelDebug msg.

Section License.
Variable env : Env.

(** [os.ReadFile(path)] *)
Definition ReadFile (path : string) : M (list byte * option error) :=
  fun s => Ret (os_ReadFile env path,
                {| logs := logs s; reads := reads s ++ [path];
                   ticks := ticks s; shared := shared s |}).

(** [time.Now()] *)
Definition Now : M Z :=
  fun s => Ret (clock env (ticks s),
                {| logs := logs s; reads := reads s;
                   ticks := S (ticks s); shared := shared s |}).

(** Modelled from the spec: [setSharedService] is declared in a file that
    is not part of the sources at hand; the service registers itself into
    the host registry under its own key, replacing what was there. *)
Definition setSharedService (svc : Service) : M unit :=
  fun s => Ret (tt, {| logs := logs s; reads := reads s;
                       ticks := ticks s; shared := Some svc |}).

(** Modelled from the spec: [CheckExpiry] is declared in a file that is
    not part of the sources at hand; it fails with the Expired condition
    when [expiry <= now]. *)
Definition CheckExpiry (license : RedpandaLicense) : M (option error) :=
  now <- Now ;;
  ret (if Expiry license <=? time.Unix now then Some (Expired (Expiry license)) else None).

(** [const defaultLicenseFilepath]; the method of [Config] below has the same
    name. *)
Definition defaultLicenseFilepath_const : string := "/etc/redpanda/redpanda.license".

Definition publicKeyPem (c : Config) : list byte :=
  if 0 <? Z.of_nat (List.length (customPublicKeyPem c)) then customPublicKeyPem c
  else licensePublicKeyPem env.

Definition defaultLicenseFilepath (c : Config) : string :=
  if negb (customDefaultLicenseFilepath c =? "")%string then customDefaultLicenseFilepath c
  else defaultLicenseFilepath_const.

Definition readLicense (c : Config) : M (list byte * option error) :=
  (* Explicit license takes priority. *)
  if negb (License c =? "")%string then
    Debug "Loading explicitly defined Redpanda Enterprise license" ;;
    ret (bytes_of (License c), None)
  (* Followed by explicit license file path. *)
  else if negb (LicenseFilepath c =? "")%string then
    Debug "Loading Redpanda Enterprise license from explicit file path" ;;
    '(licenseFileContents, err) <- ReadFile (LicenseFilepath c) ;;
    match err with
    | Some e => ret ([], Some (Errorf "failed to read license file: %w" e))
    | None => ret (licenseFileContents, None)
    end
  (* Followed by the default file path. *)
  else
    '(licenseFileContents, err) <- ReadFile (defaultLicenseFilepath c) ;;
    match err with
    | Some e =>
        if negb (os_IsNotExist e)
        then ret ([], Some (Errorf "failed to read default path license file: %w" e))
        else ret ([], None)
    | None =>
        Debug "Loaded Redpanda Enterprise license from default file path" ;;
        ret (licenseFileContents, None)
    end.

Definition validateLicense (c : Config) (license : list byte)
  : Go (RedpandaLicense * option error) :=
  let publicKeyBytes := publicKeyPem c in
  (* 1. Try to parse embedded public key *)
  match pem_Decode env publicKeyBytes with
  | None => Panic nilDereference (* block.Bytes on a nil block *)
  | Some block =>
  match x509_ParsePKIXPublicKey env (pem.Bytes block) with
  | inr err => Ret (zeroLicense, Some (Errorf "failed to parse public key: %w" err))
  | inl publicKey =>
  match publicKey with
  | OtherPublicKey _ _ =>
      Ret (zeroLicense,
           Some (ErrorsNew "failed to parse public key, expected dateFormat is not RSA"))
  | RSAPublicKey publicKeyRSA =>
  (* Trim Whitespace and Linebreaks for input license *)
  let license := bytes.TrimSpace (trimUnicodeSpace env) license in
  (* 2. Split license contents by delimiter *)
  match bytes.Split license "."%byte with
  | [licenseDataEncoded; signatureEncoded] =>
      match base64.DecodeString base64.StdEncoding (string_of_list_byte licenseDataEncoded) with
      | (_, Some err) =>
          Ret (zeroLicense, Some (Errorf "failed to decode license data: %w" err))
      | (licenseData, None) =>
      match base64.DecodeString base64.StdEncoding (string_of_list_byte signatureEncoded) with
      | (_, Some err) =>
          Ret (zeroLicense, Some (Errorf "failed to decode license signature: %w" err))
      | (signature, None) =>
      let hash := sha256_Sum256 env licenseDataEncoded in
      (* 3. Verify license contents with static public key *)
      match rsa_VerifyPKCS1v15 env publicKeyRSA hash signature with
      | Some err =>
          Ret (zeroLicense, Some (Errorf "failed to verify license signature: %w" err))
      | None =>
      (* 4. If license contents seem to be legit, we will continue unpacking the license *)
      match json_Unmarshal env licenseData zeroLicense with
      | (_, Some err) =>
          Ret (zeroLicense, Some (Errorf "failed to unmarshal license data: %w" err))
      | (rpLicense, None) => Ret (rpLicense, None)
      end end end end
  | _ => Ret (zeroLicense, Some (ErrorsNew "failed to split license contents by delimiter"))
  end end end end.

Definition trialError : error :=
  ErrorsNew "trial license detected, Redpanda Connect does not support enterprise license trials".

(** The end of [readAndValidateLicense], from the expiry check on. *)
Definition checkAndReport (license : RedpandaLicense) : M (RedpandaLicense * option error) :=
  err <- CheckExpiry license ;;
  match err with
  | Some e => ret (zeroLicense, Some e)
  | None =>
      logWith [("license_org", FString (Organization license));
               ("license_type", FString (typeDisplayName env (Type_ license)));
               ("expires_at", FString (formatRFC3339 env (Expiry license)))]
              LevelDebug "Successfully loaded Redpanda license" ;;
      ret (license, None)
  end.

Definition readAndValidateLicense (c : Config) : M (RedpandaLicense * option error) :=
  '(licenseBytes, err) <- readLicense c ;;
  match err with
  | Some e => ret (zeroLicense, Some e)
  | None =>
      if 0 <? Z.of_nat (List.length licenseBytes) then
        '(license, err) <- lift (validateLicense c licenseBytes) ;;
        match err with
        | Some e => ret (zeroLicense, Some (Errorf "failed to validate license: %w" e))
        | None =>
            if Type_ license =? 0 then
              (* If the license is a trial then we reject it because connect does
                 not support trials. *)
              ret (zeroLicense, Some trialError)
            else checkAndReport license
        end
      else
        (* An open source license is the final fall back. *)
        let year := time.Hour * 24 * 365 in
        now <- Now ;;
        checkAndReport {| Version := 0; Organization := "";
                          Expiry := time.Unix (time.Add now (10 * year));
                          Type_ := -1 |}
  end.

(** [RegisterService]; the resources are the state. *)
Definition RegisterService (c : Config) : M unit :=
  '(license, err) <- readAndValidateLicense c ;;
  match err with
  | Some e => logWith [("error", FError e)] LevelError "Failed to read Redpanda License"
  | None => ret tt
  end ;;
  setSharedService {| loadedLicense := Some license; conf := c |}.

(** [InjectTestService] *)
Definition InjectTestService : M unit :=
  now <- Now ;;
  setSharedService
    {| loadedLicense := Some {| Version := 1; Organization := "test"; Type_ := 1;
                                Expiry := time.Unix (time.Add now time.Hour) |};
       conf := {| License := ""; LicenseFilepath := "";
                  customPublicKeyPem := []; customDefaultLicenseFilepath := "" |} |}.

End License.

(** ** The license service *)

Definition debugEntry (msg : string) : LogEntry :=
  {| level := LevelDebug; fields := []; message := msg |}.

Definition errorEntry (e : error) : LogEntry :=
  {| level := LevelError; fields := [("error", FError e)];
     message := "Failed to read Redpanda License" |}.

(** The record synthesized when no credential is present, from the clock
    reading [now]. *)
Definition fallbackLicense (now : Z) : RedpandaLicense :=
  {| Version := 0; Organization := ""; Type_ := -1;
     Expiry := time.Unix now + 315360000 |}.

(** The environment [env] with another [json.Unmarshal]. *)
Definition withUnmarshal (env : Env)
           (u : list byte -> RedpandaLicense -> RedpandaLicense * option error) : Env :=
  {| pem_Decode := pem_Decode env;
     x509_ParsePKIXPublicKey := x509_ParsePKIXPublicKey env;
     sha256_Sum256 := sha256_Sum256 env;
     rsa_VerifyPKCS1v15 := rsa_VerifyPKCS1v15 env;
     json_Unmarshal := u;
     trimUnicodeSpace := trimUnicodeSpace env;
     formatRFC3339 := formatRFC3339 env;
     typeDisplayName := typeDisplayName env;
     licensePublicKeyPem := licensePublicKeyPem env;
     os_ReadFile := os_ReadFile env;
     clock := clock env |}.

(** [signatureCheck env c license r]: on the credential [license] the
    verifier reaches the call of [rsa.VerifyPKCS1v15] (the key parses as an
    RSA key, the credential has two parts and both decode), and the call
    returns [r]. *)
Definition signatureCheck (env : Env) (c : Config) (license : list byte)
           (r : option error) : Prop :=
  exists block key dataEnc sigEnc data sig,
    pem_Decode env (publicKeyPem env c) = Some block /\
    x509_ParsePKIXPublicKey env (pem.Bytes block) = inl (RSAPublicKey key) /\
    bytes.Split (bytes.TrimSpace (trimUnicodeSpace env) license) "."%byte
      = [dataEnc; sigEnc] /\
    base64.DecodeString base64.StdEncoding (string_of_list_byte dataEnc) = (data, None) /\
    base64.DecodeString base64.StdEncoding (string_of_list_byte sigEnc) = (sig, None) /\
    rsa_VerifyPKCS1v15 env key (sha256_Sum256 env dataEnc) sig = r.

Definition SignatureInvalid (e : error) : error :=
  Errorf "failed to verify license signature: %w" e.
Definition DecodeError (e : error) : error :=
  Errorf "failed to unmarshal license data: %w" e.
Definition MalformedData (e : error) : error :=
  Errorf "failed to decode license data: %w" e.
Definition LicenseInvalid (e : error) : error :=
  Errorf "failed to validate license: %w" e.
Definition SourceReadError (e : error) : error :=
  Errorf "failed to read license file: %w" e.
Definition DefaultReadError (e : error) : error :=
  Errorf "failed to read default path license file: %w" e.

(** ** A stand-in environment for running the service on examples

    The theorems below hold for every environment.  To run the service on
    concrete inputs, this module gives one: library functions that know two
    PEM files and a handful of payloads, a file system given as a list, and
    a clock that advances by one second at each reading.  Only the examples
    use it. *)

Module Demo.

Definition bytes_eqb (a b : list byte) : bool :=
  (string_of_list_byte a =? string_of_list_byte b)%string.

Definition newline : list byte := [x0a].
Definition quote : list byte := [x22].

(** A PEM file with one block whose contents stand for an RSA key. *)
Definition rsaKeyPem : list byte :=
  bytes_of "-----BEGIN PUBLIC KEY-----" ++ newline ++ bytes_of "UlNB" ++ newline
  ++ bytes_of "-----END PUBLIC KEY-----" ++ newline.

(** A PEM file with one block whose contents stand for an ECDSA key. *)
Definition ecKeyPem : list byte :=
  bytes_of "-----BEGIN PUBLIC KEY-----" ++ newline ++ bytes_of "RUM=" ++ newline
  ++ bytes_of "-----END PUBLIC KEY-----" ++ newline.

Definition decodePem (data : list byte) : option pem.Block :=
  if bytes_eqb data rsaKeyPem
  then Some {| pem.Type_ := "PUBLIC KEY"; pem.Headers := []; pem.Bytes := bytes_of "RSA" |}
  else if bytes_eqb data ecKeyPem
  then Some {| pem.Type_ := "PUBLIC KEY"; pem.Headers := []; pem.Bytes := bytes_of "EC" |}
  else None.

Definition rsaKey : rsa.PublicKey := {| rsa.N := 3233; rsa.E := 17 |}.

Definition parseKey (der : list byte) : anyPublicKey + error :=
  if bytes_eqb der (bytes_of "RSA") then inl (RSAPublicKey rsaKey)
  else if bytes_eqb der (bytes_of "EC") then inl (OtherPublicKey "ECDSA" der)
  else inr (LibError "x509" "failed to parse public key").

(** The digest is the data itself and a signature verifies when it is
    the digest reversed. *)
Definition digest (data : list byte) : list byte := data.

Definition verify (pub : rsa.PublicKey) (hashed sig : list byte) : option error :=
  if bytes_eqb sig (rev hashed) then None
  else Some (LibError "crypto/rsa" "verification error").

Definition jsonField (name value : string) : list byte :=
  quote ++ bytes_of name ++ quote ++ bytes_of ":" ++ bytes_of value.

Definition jsonLicense (version org type expiry : string) : list byte :=
  bytes_of "{" ++ jsonField "version" version ++ bytes_of ","
  ++ quote ++ bytes_of "organization" ++ quote ++ bytes_of ":" ++ quote ++ bytes_of org ++ quote
  ++ bytes_of "," ++ jsonField "type" type ++ bytes_of ","
  ++ jsonField "expiry" expiry ++ bytes_of "}".

Definition enterprisePayload : list byte := jsonLicense "1" "acme" "2" "4102444800".
Definition trialPayload : list byte := jsonLicense "1" "acme" "0" "4102444800".
Definition expiredPayload : list byte := jsonLicense "1" "acme" "2" "1000000000".
Definition expiredTrialPayload : list byte := jsonLicense "1" "acme" "0" "1000000000".
Definition questionPayload : list byte := jsonLicense "1" "who???" "2" "4102444800".

Definition unmarshal (data : list byte) (v : RedpandaLicense)
  : RedpandaLicense * option error :=
  if bytes_eqb data enterprisePayload then
    ({| Version := 1; Organization := "acme"; Type_ := 2; Expiry := 4102444800 |}, None)
  else if bytes_eqb data trialPayload then
    ({| Version := 1; Organization := "acme"; Type_ := 0; Expiry := 4102444800 |}, None)
  else if bytes_eqb data expiredPayload then
    ({| Version := 1; Organization := "acme"; Type_ := 2; Expiry := 1000000000 |}, None)
  else if bytes_eqb data expiredTrialPayload then
    ({| Version := 1; Organization := "acme"; Type_ := 0; Expiry := 1000000000 |}, None)
  else if bytes_eqb data questionPayload then
    ({| Version := 1; Organization := "who???"; Type_ := 2; Expiry := 4102444800 |}, None)
  else (v, Some (LibError "encoding/json" "invalid character")).

(** A credential for [payload]: its standard encoding, a dot and the
    encoded signature. *)
Definition sign (payload : list byte) : list byte :=
  let dataEnc := base64.Encode base64.StdEncoding payload in
  dataEnc ++ bytes_of "." ++ base64.Encode base64.StdEncoding (rev dataEnc).

Definition displayName (t : Z) : string :=
  if t =? 0 then "free trial" else if t =? 1 then "enterprise" else "open source".

(** The files: a path with its contents or the errno of reading it; any
    other path does not exist. *)
Fixpoint readFrom (files : list (string * (list byte + Z))) (path : string)
  : list byte * option error :=
  match files with
  | [] => ([], Some (PathError "open" path ENOENT))
  | (p, f) :: files' =>
      if (p =? path)%string then
        match f with
        | inl contents => (contents, None)
        | inr errno => ([], Some (PathError "open" path errno))
        end
      else readFrom files' path
  end.

(** The clock starts at 2023-11-14T22:13:20Z and advances by one second
    at each reading. *)
Definition startTime : Z := 1700000000.

Definition env (files : list (string * (list byte + Z))) : Env :=
  {| pem_Decode := decodePem;
     x509_ParsePKIXPublicKey := parseKey;
     sha256_Sum256 := digest;
     rsa_VerifyPKCS1v15 := verify;
     json_Unmarshal := unmarshal;
     trimUnicodeSpace := fun s => s;
     formatRFC3339 := fun _ => "";
     typeDisplayName := displayName;
     licensePublicKeyPem := rsaKeyPem;
     os_ReadFile := readFrom files;
     clock := fun n => (startTime + Z.of_nat n) * time.Second |}.

Definition config (license path : string) : Config :=
  {| License := license; LicenseFilepath := path;
     customPublicKeyPem := []; customDefaultLicenseFilepath := "" |}.

(** Two files, and configurations that name all three sources or the two
    files only. *)
Definition twoFiles : list (string * (list byte + Z)) :=
  [("/opt/redpanda.license", inl (bytes_of "file.credential"));
   ("/opt/default", inl (bytes_of "default.credential"))].

Definition threeSources : Config :=
  {| License := "inline.credential"; LicenseFilepath := "/opt/redpanda.license";
     customPublicKeyPem := []; customDefaultLicenseFilepath := "/opt/default" |}.

Definition twoSources : Config :=
  {| License := ""; LicenseFilepath := "/opt/redpanda.license";
     customPublicKeyPem := []; customDefaultLicenseFilepath := "/opt/default" |}.

(** The configuration with [credential] inline. *)
Definition inline (credential : list byte) : Config :=
  config (string_of_list_byte credential) "".

(** A credential for [payload] whose signature is not the right one. *)
Definition forge (payload : list byte) : list byte :=
  base64.Encode base64.StdEncoding payload ++ bytes_of "."
  ++ base64.Encode base64.StdEncoding (bytes_of "forged").

(** A credential whose payload segment is in the URL-safe alphabet. *)
Definition urlCredential (payload : list byte) : list byte :=
  base64.Encode base64.URLEncoding payload ++ bytes_of "."
  ++ base64.Encode base64.StdEncoding (bytes_of "forged").

Definition rsaBlock : pem.Block :=
  {| pem.Type_ := "PUBLIC KEY"; pem.Headers := []; pem.Bytes := bytes_of "RSA" |}.

Definition verificationError : error := LibError "crypto/rsa" "verification error".

(** The state after the locator returned an inline credential. *)
Definition afterInline : State :=
  {| logs := [debugEntry "Loading explicitly defined Redpanda Enterprise license"];
     reads := []; ticks := 0; shared := None |}.

End Demo.

(** ** More of the package and of its library, for the properties beyond the claims *)

(** The debug entry that reports a loaded license. *)
Definition successEntry (env : Env) (license : RedpandaLicense) : LogEntry :=
  {| level := LevelDebug;
     fields := [("license_org", FString (Organization license));
                ("license_type", FString (typeDisplayName env (Type_ license)));
                ("expires_at", FString (formatRFC3339 env (Expiry license)))];
     message := "Successfully loaded Redpanda license" |}.

(** [base64.RawStdEncoding]: the standard alphabet without padding
    ([StdEncoding.WithPadding(NoPadding)]). *)
Definition RawStdEncoding : base64.Encoding :=
  {| base64.encode := bytes_of base64.encodeStd;
     base64.padChar := None;
     base64.strict := false |}.

(** A byte below [utf8.RuneSelf]. *)
Definition isASCII (c : byte) : bool := byte_val c <? bytes.RuneSelf.

(** A byte the standard decoder reads: a character of the alphabet, the
    padding, or a line break. *)
Definition stdReadable (c : byte) : bool :=
  negb (base64.decodeMap base64.StdEncoding c =? 255)
  || base64.isPad base64.StdEncoding c
  || base64.isNewline c.

(** [src] without its carriage returns and line feeds. *)
Definition stripNewlines (src : list byte) : list byte :=
  filter (fun c => negb (base64.isNewline c)) src.

(** The kinds of error [validateLicense] returns. *)
Definition KeyParseError (e : error) : Prop :=
  (exists e0, e = Errorf "failed to parse public key: %w" e0) \/
  e = ErrorsNew "failed to parse public key, expected dateFormat is not RSA".

Definition MalformedCredential (e : error) : Prop :=
  e = ErrorsNew "failed to split license contents by delimiter" \/
  (exists n, e = MalformedData (CorruptInputError n)) \/
  (exists n, e = Errorf "failed to decode license signature: %w" (CorruptInputError n)).

(** The number of occurrences of [sep] in [s]. *)
Definition countByte (sep : byte) (s : list byte) : nat :=
  List.length (filter (fun c => Byte.eqb c sep) s).

Definition splitError : error :=
  ErrorsNew "failed to split license contents by delimiter".

(** The environment [env] with another embedded key file. *)
Definition withEmbeddedKey (env : Env) (key : list byte) : Env :=
  {| pem_Decode := pem_Decode env;
     x509_ParsePKIXPublicKey := x509_ParsePKIXPublicKey env;
     sha256_Sum256 := sha256_Sum256 env;
     rsa_VerifyPKCS1v15 := rsa_VerifyPKCS1v15 env;
     json_Unmarshal := json_Unmarshal env;
     trimUnicodeSpace := trimUnicodeSpace env;
     formatRFC3339 := formatRFC3339 env;
     typeDisplayName := typeDisplayName env;
     licensePublicKeyPem := key;
     os_ReadFile := os_ReadFile env;
     clock := clock env |}.

Definition isDebugEntry (entry : LogEntry) : Prop := level entry = LevelDebug.

(** Texts of ASCII white space, and of ASCII bytes. *)
Definition allSpace (s : list byte) : Prop := Forall (fun c => bytes.asciiSpace c = true) s.
Definition allASCII (s : list byte) : Prop := Forall (fun c => isASCII c = true) s.

(** Two results of the decoder that succeed together, with the same bytes. *)
Definition sameDecoding (r1 r2 : list byte * option error) : Prop :=
  forall out, r1 = (out, None) <-> r2 = (out, None).

Definition SignatureMalformed (n : Z) : error :=
  Errorf "failed to decode license signature: %w" (CorruptInputError n).

(** A character the standard encoder writes: one of the alphabet, or the
    padding. *)
Definition isWireChar (c : byte) : bool :=
  negb (base64.decodeMap base64.StdEncoding c =? 255)
  || base64.isPad base64.StdEncoding c.

(** The credential an issuer writes for [payload] and [signature]: the two
    standard encodings around a dot. *)
Definition credentialOf (payload signature : list byte) : list byte :=
  base64.Encode base64.StdEncoding payload ++ "."%byte
  :: base64.Encode base64.StdEncoding signature.

(** ** More examples for the stand-in environment *)

Module Cases.

Definition enterprise : RedpandaLicense :=
  {| Version := 1; Organization := "acme"; Type_ := 2; Expiry := 4102444800 |}.

(** The configuration with a key of its own, the stand-in RSA key file. *)
Definition withOwnKey (credential : list byte) : Config :=
  {| License := string_of_list_byte credential; LicenseFilepath := "";
     customPublicKeyPem := Demo.rsaKeyPem; customDefaultLicenseFilepath := "" |}.

Definition space : list byte := [x20; x0a].

(** A signed credential whose signature segment is broken over two lines. *)
Definition wrapped (payload : list byte) : list byte :=
  let dataEnc := base64.Encode base64.StdEncoding payload in
  let sigEnc := base64.Encode base64.StdEncoding (rev dataEnc) in
  dataEnc ++ bytes_of "." ++ firstn 40 sigEnc ++ [x0d; x0a] ++ skipn 40 sigEnc.

(** Files: an empty one, one that holds a line break only, and a signed
    credential at the default path. *)
Definition files : list (string * (list byte + Z)) :=
  [("/opt/empty.license", inl []);
   ("/opt/blank.license", inl [x0a]);
   ("/etc/redpanda/redpanda.license", inl (Demo.sign Demo.enterprisePayload))].

End Cases.

(** The file the locator reads for a configuration: none, the configured
    file, or the default one. *)
Definition filesConsulted (c : Config) : list string :=
  if (License c =? "")%string then
    if (LicenseFilepath c =? "")%string then [defaultLicenseFilepath c]
    else [LicenseFilepath c]
  else [].


(** * Verification *)

Ltac unfold_m :=
  unfold bind, ret, lift, Debug, logWith, ReadFile, Now, setSharedService in *.

(** ** Facts about [encoding/base64] *)

Module base64_facts.
Import base64.

Lemma byte_val_range (b : byte) : 0 <= byte_val b < 256.
Proof.
  unfold byte_val. pose proof (Byte.to_N_bounded b). lia.
Qed.

Lemma byte_of_Z_low (v : Z) (b : byte) :
  Z.land v 255 = byte_val b -> byte_of_Z v = b.
Proof.
  intros H. unfold byte_of_Z. rewrite H. unfold byte_val.
  rewrite N2Z.id, Byte.of_to_N. reflexivity.
Qed.

Lemma sextet_range (v : Z) : 0 <= Z.land v 63 < 64.
Proof.
  change 63 with (Z.ones 6). rewrite Z.land_ones by lia.
  apply Z.mod_pos_bound. reflexivity.
Qed.

(** The decoding table inverts the standard alphabet. *)
Lemma decodeMap_std_table :
  forallb (fun n => decodeMap StdEncoding (encodeAt StdEncoding (Z.of_nat n)) =? Z.of_nat n)
          (seq 0 64) = true.
Proof. vm_compute. reflexivity. Qed.

Lemma decodeMap_encodeAt_std (s : Z) :
  0 <= s < 64 -> decodeMap StdEncoding (encodeAt StdEncoding s) = s.
Proof.
  intros H. pose proof decodeMap_std_table as T.
  rewrite forallb_forall in T.
  specialize (T (Z.to_nat s)). rewrite Z2Nat.id in T by lia.
  apply Z.eqb_eq, T, in_seq. lia.
Qed.

Lemma decodeLoop_cons enc len c src si dbuf :
  decodeLoop enc len (c :: src) si dbuf =
  let j := Z.of_nat (List.length dbuf) in
  let si := si + 1 in
  let out := decodeMap enc c in
  if negb (out =? 255) then
    let dbuf := dbuf ++ [out] in
    if j + 1 <? 4 then decodeLoop enc len src si dbuf
    else
      match convertQuantum enc dbuf 4 si None with
      | (q, Some e) => (q, Some e)
      | (q, None) =>
          let '(rest, err) := decodeLoop enc len src si [] in
          (q ++ rest, err)
      end
  else if isNewline c then decodeLoop enc len src si dbuf
  else if negb (isPad enc c) then ([], Some (CorruptInputError (si - 1)))
  else decodePadding enc dbuf j src si len.
Proof. reflexivity. Qed.

Lemma decodeLoop_sextet len s src si dbuf :
  0 <= s < 64 -> (List.length dbuf < 3)%nat ->
  decodeLoop StdEncoding len (encodeAt StdEncoding s :: src) si dbuf =
  decodeLoop StdEncoding len src (si + 1) (dbuf ++ [s]).
Proof.
  intros Hs Hl. rewrite decodeLoop_cons. cbv zeta.
  rewrite decodeMap_encodeAt_std by assumption.
  replace (negb (s =? 255)) with true by (symmetry; apply negb_true_iff, Z.eqb_neq; lia).
  replace (Z.of_nat (List.length dbuf) + 1 <? 4) with true
    by (symmetry; apply Z.ltb_lt; lia).
  reflexivity.
Qed.

Lemma decodeLoop_sextet_last len s src si d0 d1 d2 :
  0 <= s < 64 ->
  decodeLoop StdEncoding len (encodeAt StdEncoding s :: src) si [d0; d1; d2] =
  match convertQuantum StdEncoding [d0; d1; d2; s] 4 (si + 1) None with
  | (q, Some e) => (q, Some e)
  | (q, None) =>
      let '(rest, err) := decodeLoop StdEncoding len src (si + 1) [] in
      (q ++ rest, err)
  end.
Proof.
  intros Hs. rewrite decodeLoop_cons. cbv zeta.
  rewrite decodeMap_encodeAt_std by assumption.
  replace (negb (s =? 255)) with true by (symmetry; apply negb_true_iff, Z.eqb_neq; lia).
  reflexivity.
Qed.

(** Bit-level facts: packing the sextets of a 24-bit group gives the
    group back (without the bits no sextet carried), and the bytes of a
    group are the source bytes. *)
Ltac blast_bytes :=
  repeat match goal with
         | H : 0 <= ?a < 256 |- _ =>
             rewrite <- (Z.mod_small a (2 ^ 8)) by lia; clear H
         end;
  change 63 with (Z.ones 6); change 255 with (Z.ones 8);
  Z.bitblast;
  repeat match goal with
         | |- context [Z.testbit ?x ?i] => rewrite (Z.testbit_neg_r x i) by lia
         end;
  try reflexivity; try btauto.

Lemma pack4 v :
  Z.lor (Z.lor (Z.lor (Z.shiftl (Z.land (Z.shiftr v 18) 63) 18)
                      (Z.shiftl (Z.land (Z.shiftr v 12) 63) 12))
               (Z.shiftl (Z.land (Z.shiftr v 6) 63) 6))
        (Z.land v 63) = v mod 2 ^ 24.
Proof. blast_bytes. Qed.

Lemma pack3 v :
  Z.lor (Z.lor (Z.lor (Z.shiftl (Z.land (Z.shiftr v 18) 63) 18)
                      (Z.shiftl (Z.land (Z.shiftr v 12) 63) 12))
               (Z.shiftl (Z.land (Z.shiftr v 6) 63) 6))
        0 = Z.shiftl (Z.shiftr v 6) 6 mod 2 ^ 24.
Proof. blast_bytes. Qed.

Lemma pack2 v :
  Z.lor (Z.lor (Z.lor (Z.shiftl (Z.land (Z.shiftr v 18) 63) 18)
                      (Z.shiftl (Z.land (Z.shiftr v 12) 63) 12))
               (Z.shiftl 0 6))
        0 = Z.shiftl (Z.shiftr v 12) 12 mod 2 ^ 24.
Proof. blast_bytes. Qed.

Lemma group3_byte0 a b c :
  0 <= a < 256 -> 0 <= b < 256 -> 0 <= c < 256 ->
  Z.land (Z.shiftr (Z.lor (Z.lor (Z.shiftl a 16) (Z.shiftl b 8)) c mod 2 ^ 24) 16) 255 = a.
Proof. intros Ha Hb Hc. blast_bytes. Qed.

Lemma group3_byte1 a b c :
  0 <= a < 256 -> 0 <= b < 256 -> 0 <= c < 256 ->
  Z.land (Z.shiftr (Z.lor (Z.lor (Z.shiftl a 16) (Z.shiftl b 8)) c mod 2 ^ 24) 8) 255 = b.
Proof. intros Ha Hb Hc. blast_bytes. Qed.

Lemma group3_byte2 a b c :
  0 <= a < 256 -> 0 <= b < 256 -> 0 <= c < 256 ->
  Z.land (Z.shiftr (Z.lor (Z.lor (Z.shiftl a 16) (Z.shiftl b 8)) c mod 2 ^ 24) 0) 255 = c.
Proof. intros Ha Hb Hc. blast_bytes. Qed.

Lemma group2_byte0 a b :
  0 <= a < 256 -> 0 <= b < 256 ->
  Z.land (Z.shiftr (Z.shiftl (Z.shiftr (Z.lor (Z.shiftl a 16) (Z.shiftl b 8)) 6) 6
                    mod 2 ^ 24) 16) 255 = a.
Proof. intros Ha Hb. blast_bytes. Qed.

Lemma group2_byte1 a b :
  0 <= a < 256 -> 0 <= b < 256 ->
  Z.land (Z.shiftr (Z.shiftl (Z.shiftr (Z.lor (Z.shiftl a 16) (Z.shiftl b 8)) 6) 6
                    mod 2 ^ 24) 8) 255 = b.
Proof. intros Ha Hb. blast_bytes. Qed.

Lemma group1_byte0 a :
  0 <= a < 256 ->
  Z.land (Z.shiftr (Z.shiftl (Z.shiftr (Z.shiftl a 16) 12) 12 mod 2 ^ 24) 16) 255 = a.
Proof. intros Ha. blast_bytes. Qed.

(** One quantum of the decoder undoes one group of the encoder. *)
Lemma convertQuantum_group3 (b0 b1 b2 : byte) si :
  let val := Z.lor (Z.lor (Z.shiftl (byte_val b0) 16) (Z.shiftl (byte_val b1) 8))
                   (byte_val b2) in
  convertQuantum StdEncoding
    [Z.land (Z.shiftr val 18) 63; Z.land (Z.shiftr val 12) 63;
     Z.land (Z.shiftr val 6) 63; Z.land val 63] 4 si None
  = ([b0; b1; b2], None).
Proof.
  intros val. unfold convertQuantum.
  change (4 =? 4) with true. cbv iota. unfold nth.
  rewrite pack4. subst val.
  pose proof (byte_val_range b0). pose proof (byte_val_range b1).
  pose proof (byte_val_range b2).
  rewrite (byte_of_Z_low _ b0) by (apply group3_byte0; assumption).
  rewrite (byte_of_Z_low _ b1) by (apply group3_byte1; assumption).
  rewrite (byte_of_Z_low _ b2) by (apply group3_byte2; assumption).
  reflexivity.
Qed.

Lemma convertQuantum_group2 (b0 b1 : byte) si :
  let val := Z.lor (Z.shiftl (byte_val b0) 16) (Z.shiftl (byte_val b1) 8) in
  convertQuantum StdEncoding
    [Z.land (Z.shiftr val 18) 63; Z.land (Z.shiftr val 12) 63;
     Z.land (Z.shiftr val 6) 63] 3 si None
  = ([b0; b1], None).
Proof.
  intros val. unfold convertQuantum.
  change (3 =? 4) with false. change (3 =? 3) with true.
  change (strict StdEncoding) with false. cbv iota. unfold nth, andb.
  rewrite pack3. subst val.
  pose proof (byte_val_range b0). pose proof (byte_val_range b1).
  rewrite (byte_of_Z_low _ b0) by (apply group2_byte0; assumption).
  rewrite (byte_of_Z_low _ b1) by (apply group2_byte1; assumption).
  reflexivity.
Qed.

Lemma convertQuantum_group1 (b0 : byte) si :
  let val := Z.shiftl (byte_val b0) 16 in
  convertQuantum StdEncoding
    [Z.land (Z.shiftr val 18) 63; Z.land (Z.shiftr val 12) 63] 2 si None
  = ([b0], None).
Proof.
  intros val. unfold convertQuantum.
  change (2 =? 4) with false. change (2 =? 3) with false. change (2 =? 2) with true.
  change (strict StdEncoding) with false. cbv iota. unfold nth, andb.
  rewrite pack2. subst val.
  pose proof (byte_val_range b0).
  rewrite (byte_of_Z_low _ b0) by (apply group1_byte0; assumption).
  reflexivity.
Qed.

Lemma Encode_group3 enc b0 b1 b2 rest :
  Encode enc (b0 :: b1 :: b2 :: rest) =
  let val := Z.lor (Z.lor (Z.shiftl (byte_val b0) 16) (Z.shiftl (byte_val b1) 8))
                   (byte_val b2) in
  encodeAt enc (Z.land (Z.shiftr val 18) 63)
  :: encodeAt enc (Z.land (Z.shiftr val 12) 63)
  :: encodeAt enc (Z.land (Z.shiftr val 6) 63)
  :: encodeAt enc (Z.land val 63)
  :: Encode enc rest.
Proof. reflexivity. Qed.

Lemma Encode_group2 b0 b1 :
  Encode StdEncoding [b0; b1] =
  let val := Z.lor (Z.shiftl (byte_val b0) 16) (Z.shiftl (byte_val b1) 8) in
  [encodeAt StdEncoding (Z.land (Z.shiftr val 18) 63);
   encodeAt StdEncoding (Z.land (Z.shiftr val 12) 63);
   encodeAt StdEncoding (Z.land (Z.shiftr val 6) 63);
   StdPadding].
Proof. reflexivity. Qed.

Lemma Encode_group1 b0 :
  Encode StdEncoding [b0] =
  let val := Z.shiftl (byte_val b0) 16 in
  [encodeAt StdEncoding (Z.land (Z.shiftr val 18) 63);
   encodeAt StdEncoding (Z.land (Z.shiftr val 12) 63);
   StdPadding; StdPadding].
Proof. reflexivity. Qed.

Lemma decodeLoop_pad2 len si d0 d1 :
  decodeLoop StdEncoding len [StdPadding; StdPadding] si [d0; d1] =
  convertQuantum StdEncoding [d0; d1] 2 (si + 1 + 1) None.
Proof. reflexivity. Qed.

Lemma decodeLoop_pad1 len si d0 d1 d2 :
  decodeLoop StdEncoding len [StdPadding] si [d0; d1; d2] =
  convertQuantum StdEncoding [d0; d1; d2] 3 (si + 1) None.
Proof. reflexivity. Qed.

Lemma list_ind3 {A} (P : list A -> Prop) :
  P [] -> (forall a, P [a]) -> (forall a b, P [a; b]) ->
  (forall a b c l, P l -> P (a :: b :: c :: l)) ->
  forall l, P l.
Proof.
  intros H0 H1 H2 H3 l.
  assert (P l /\ (forall a, P (a :: l)) /\ (forall a b, P (a :: b :: l))) as [H _].
  { induction l as [|x l (IH0 & IH1 & IH2)]; [now auto|].
    split; [apply IH1|]. split; [intros; apply IH2|]. intros a b. now apply H3. }
  exact H.
Qed.

(** Decoding what the standard encoder produced gives the source back. *)
Lemma decodeLoop_Encode (src : list byte) :
  forall len si, decodeLoop StdEncoding len (Encode StdEncoding src) si [] = (src, None).
Proof.
  induction src as [|b0|b0 b1|b0 b1 b2 rest IH] using list_ind3; intros len si.
  - reflexivity.
  - rewrite Encode_group1. cbv zeta.
    rewrite decodeLoop_sextet by (try apply sextet_range; simpl; lia). cbn [app].
    rewrite decodeLoop_sextet by (try apply sextet_range; simpl; lia). cbn [app].
    rewrite decodeLoop_pad2. apply convertQuantum_group1.
  - rewrite Encode_group2. cbv zeta.
    rewrite decodeLoop_sextet by (try apply sextet_range; simpl; lia). cbn [app].
    rewrite decodeLoop_sextet by (try apply sextet_range; simpl; lia). cbn [app].
    rewrite decodeLoop_sextet by (try apply sextet_range; simpl; lia). cbn [app].
    rewrite decodeLoop_pad1. apply convertQuantum_group2.
  - rewrite Encode_group3. cbv zeta.
    rewrite decodeLoop_sextet by (try apply sextet_range; simpl; lia). cbn [app].
    rewrite decodeLoop_sextet by (try apply sextet_range; simpl; lia). cbn [app].
    rewrite decodeLoop_sextet by (try apply sextet_range; simpl; lia). cbn [app].
    rewrite decodeLoop_sextet_last by apply sextet_range.
    rewrite convertQuantum_group3, IH. reflexivity.
Qed.

Lemma Decode_Encode_std (src : list byte) :
  Decode StdEncoding (Encode StdEncoding src) = (src, None).
Proof. unfold Decode. apply decodeLoop_Encode. Qed.

(** A byte that is neither in the alphabet, nor a line break, nor the
    padding makes the decoder fail, wherever it stands. *)
Lemma skipNewlines_In c src si :
  isNewline c = false -> In c src -> In c (fst (skipNewlines src si)).
Proof.
  intros Hc. revert si. induction src as [|x src IH]; intros si Hin; [exact Hin|].
  simpl. destruct (isNewline x) eqn:Hx.
  - destruct Hin as [->|Hin]; [congruence|]. now apply IH.
  - exact Hin.
Qed.

Lemma convertQuantum_keeps_error enc dbuf dlen si e :
  exists out e', convertQuantum enc dbuf dlen si (Some e) = (out, Some e').
Proof.
  unfold convertQuantum.
  repeat match goal with
         | |- context [if ?b then _ else _] => destruct b
         end; eauto.
Qed.

Lemma decodePadding_rejects enc dbuf j src si len c :
  isNewline c = false -> isPad enc c = false -> In c src ->
  exists out e, decodePadding enc dbuf j src si len = (out, Some e).
Proof.
  intros Hn Hp Hin. unfold decodePadding.
  destruct (j <? 2); [now eauto|].
  assert (Hfinal : forall src1 si1, In c src1 ->
    exists out e,
      (let '(src2, si2) := skipNewlines src1 si1 in
       let err := match src2 with
                  | [] => None
                  | _ :: _ => Some (CorruptInputError si2)
                  end in
       convertQuantum enc dbuf j si2 err) = (out, Some e)).
  { intros src1 si1 H1. pose proof (skipNewlines_In c src1 si1 Hn H1) as H2.
    destruct (skipNewlines src1 si1) as [src2 si2]. simpl in H2.
    destruct src2; [contradiction|]. apply convertQuantum_keeps_error. }
  destruct (j =? 2).
  - pose proof (skipNewlines_In c src si Hn Hin) as H1.
    destruct (skipNewlines src si) as [src1 si1]. simpl in H1.
    destruct src1 as [|x src2]; [contradiction|].
    destruct (isPad enc x) eqn:Hx; [|now eauto].
    destruct H1 as [->|H1]; [congruence|]. now apply Hfinal.
  - now apply Hfinal.
Qed.

Lemma decodeLoop_rejects enc len c :
  decodeMap enc c = 255 -> isNewline c = false -> isPad enc c = false ->
  forall src si dbuf, In c src ->
  exists out e, decodeLoop enc len src si dbuf = (out, Some e).
Proof.
  intros Hm Hn Hp. induction src as [|x src IH]; intros si dbuf Hin; [contradiction|].
  rewrite decodeLoop_cons. cbv zeta.
  destruct (negb (decodeMap enc x =? 255)) eqn:Hx.
  - assert (In c src) as Hin'.
    { destruct Hin as [->|Hin]; [|exact Hin].
      rewrite Hm in Hx. discriminate. }
    destruct (Z.of_nat (List.length dbuf) + 1 <? 4); [now apply IH|].
    destruct (convertQuantum enc (dbuf ++ [decodeMap enc x]) 4 (si + 1) None)
      as [q [e|]]; [now eauto|].
    destruct (IH (si + 1) [] Hin') as (out & e & ->). eauto.
  - destruct (isNewline x) eqn:Hnx.
    + destruct Hin as [->|Hin]; [congruence|]. now apply IH.
    + destruct (isPad enc x) eqn:Hpx; simpl; [|now eauto].
      destruct Hin as [->|Hin]; [congruence|].
      now apply decodePadding_rejects with (c := c).
Qed.

Lemma Decode_std_rejects_urlsafe (src : list byte) :
  In "-"%byte src \/ In "_"%byte src ->
  exists out e, Decode StdEncoding src = (out, Some e).
Proof.
  intros [H|H]; unfold Decode.
  - apply decodeLoop_rejects with (c := "-"%byte); auto.
  - apply decodeLoop_rejects with (c := "_"%byte); auto.
Qed.

(** [DecodeString(string(b))] decodes the bytes [b]. *)
Lemma DecodeString_bytes enc (b : list byte) :
  DecodeString enc (string_of_list_byte b) = Decode enc b.
Proof.
  unfold DecodeString, bytes_of. rewrite list_byte_of_string_of_list_byte. reflexivity.
Qed.

Lemma DecodeString_EncodeToString_std (src : list byte) :
  DecodeString StdEncoding (EncodeToString StdEncoding src) = (src, None).
Proof. unfold EncodeToString. rewrite DecodeString_bytes. apply Decode_Encode_std. Qed.

Lemma DecodeString_std_rejects_urlsafe (src : list byte) :
  In "-"%byte src \/ In "_"%byte src ->
  exists out e, DecodeString StdEncoding (string_of_list_byte src) = (out, Some e).
Proof. rewrite DecodeString_bytes. apply Decode_std_rejects_urlsafe. Qed.

End base64_facts.

Section LicenseFacts.
Variable env : Env.

Lemma string_eqb_neq (a b : string) : a <> b -> (a =? b)%string = false.
Proof. intros H. now apply String.eqb_neq. Qed.

Lemma ten_years (now : Z) :
  time.Unix (time.Add now (10 * (time.Hour * 24 * 365))) = time.Unix now + 315360000.
Proof.
  unfold time.Unix, time.Add, time.Hour, time.Second.
  replace (now + 10 * (3600 * 1000000000 * 24 * 365))
    with (now + 315360000 * 1000000000) by lia.
  apply Z.div_add. lia.
Qed.

(** Every error return of the verifier carries the zero record. *)
Lemma validateLicense_error_zero c b lic e :
  validateLicense env c b = Ret (lic, Some e) -> lic = zeroLicense.
Proof.
  unfold validateLicense. intros H.
  repeat match type of H with
         | context [match ?x with _ => _ end] => destruct x
         end; congruence.
Qed.

Lemma CheckExpiry_run lic s :
  CheckExpiry env lic s =
  Ret (if Expiry lic <=? time.Unix (clock env (ticks s))
       then Some (Expired (Expiry lic)) else None,
       {| logs := logs s; reads := reads s; ticks := S (ticks s); shared := shared s |}).
Proof. reflexivity. Qed.

Lemma checkAndReport_error_zero lic s r e s' :
  checkAndReport env lic s = Ret ((r, Some e), s') -> r = zeroLicense.
Proof.
  unfold checkAndReport, bind. rewrite CheckExpiry_run.
  destruct (Expiry lic <=? _); unfold_m; congruence.
Qed.

Lemma readLicense_returns c s :
  exists r s', readLicense env c s = Ret (r, s').
Proof.
  unfold readLicense.
  destruct (negb (License c =? "")%string); [unfold_m; now eauto|].
  destruct (negb (LicenseFilepath c =? "")%string); unfold_m.
  - destruct (os_ReadFile env (LicenseFilepath c)) as [b [e|]]; eauto.
  - destruct (os_ReadFile env (defaultLicenseFilepath c)) as [b [e|]]; [|now eauto].
    destruct (negb (os_IsNotExist e)); eauto.
Qed.

(** Every error return of the load carries the zero record. *)
Lemma readAndValidateLicense_error_zero c s lic e s' :
  readAndValidateLicense env c s = Ret ((lic, Some e), s') -> lic = zeroLicense.
Proof.
  unfold readAndValidateLicense. unfold bind at 1.
  destruct (readLicense env c s) as [[[b [e0|]] s0]|]; unfold ret; [congruence| |discriminate].
  destruct (0 <? Z.of_nat (List.length b)).
  - unfold bind, lift.
    destruct (validateLicense env c b) as [[l [e1|]]|]; [congruence| |discriminate].
    destruct (Type_ l =? 0); [congruence|]. apply checkAndReport_error_zero.
  - unfold bind at 1. unfold Now. apply checkAndReport_error_zero.
Qed.

Lemma RegisterService_after_error c s lic e s1 :
  readAndValidateLicense env c s = Ret ((lic, Some e), s1) ->
  RegisterService env c s =
  Ret (tt, {| logs := logs s1 ++ [errorEntry e]; reads := reads s1; ticks := ticks s1;
              shared := Some {| loadedLicense := Some zeroLicense; conf := c |} |}).
Proof.
  intros H. pose proof (readAndValidateLicense_error_zero _ _ _ _ _ H) as ->.
  unfold RegisterService. unfold bind at 1. rewrite H. reflexivity.
Qed.

Lemma RegisterService_after_success c s lic s1 :
  readAndValidateLicense env c s = Ret ((lic, None), s1) ->
  RegisterService env c s =
  Ret (tt, {| logs := logs s1; reads := reads s1; ticks := ticks s1;
              shared := Some {| loadedLicense := Some lic; conf := c |} |}).
Proof.
  intros H. unfold RegisterService. unfold bind at 1. rewrite H. reflexivity.
Qed.

End LicenseFacts.

Section Verifier.
Variable env : Env.

(** A successful return and a [DecodeError] both come after a signature
    check that passed. *)
Lemma validateLicense_interprets_after_check c license lic err :
  validateLicense env c license = Ret (lic, err) ->
  err = None \/ (exists e, err = Some (DecodeError e)) ->
  signatureCheck env c license None.
Proof.
  unfold validateLicense, signatureCheck, DecodeError. intros H Herr.
  destruct (pem_Decode env (publicKeyPem env c)) as [block|] eqn:Hp; [|discriminate].
  destruct (x509_ParsePKIXPublicKey env (pem.Bytes block)) as [[key|alg raw]|e0] eqn:Hk.
  2,3: destruct Herr as [->|[e ->]]; discriminate.
  destruct (bytes.Split _ _) as [|dataEnc [|sigEnc [|x parts]]] eqn:Hsp.
  1,2,4: destruct Herr as [->|[e ->]]; discriminate.
  destruct (base64.DecodeString base64.StdEncoding (string_of_list_byte dataEnc))
    as [data [e1|]] eqn:Hd.
  1: destruct Herr as [->|[e ->]]; discriminate.
  destruct (base64.DecodeString base64.StdEncoding (string_of_list_byte sigEnc))
    as [sig [e2|]] eqn:Hs.
  1: destruct Herr as [->|[e ->]]; discriminate.
  destruct (rsa_VerifyPKCS1v15 env key _ sig) as [e3|] eqn:Hv.
  1: destruct Herr as [->|[e ->]]; discriminate.
  exists block, key, dataEnc, sigEnc, data, sig. auto 10.
Qed.

(** The two key errors that are returned. *)
Lemma validateLicense_unparsable_key c license block e :
  pem_Decode env (publicKeyPem env c) = Some block ->
  x509_ParsePKIXPublicKey env (pem.Bytes block) = inr e ->
  validateLicense env c license =
  Ret (zeroLicense, Some (Errorf "failed to parse public key: %w" e)).
Proof. unfold validateLicense. intros -> ->. reflexivity. Qed.

Lemma validateLicense_key_not_rsa c license block alg raw :
  pem_Decode env (publicKeyPem env c) = Some block ->
  x509_ParsePKIXPublicKey env (pem.Bytes block) = inl (OtherPublicKey alg raw) ->
  validateLicense env c license =
  Ret (zeroLicense,
       Some (ErrorsNew "failed to parse public key, expected dateFormat is not RSA")).
Proof. unfold validateLicense. intros -> ->. reflexivity. Qed.

End Verifier.

(** C1 (as the code has it).  Both segments are base64-decoded before
    the signature is checked, and the payload is deserialized only after
    the check passed: whenever the verifier reaches the signature check and
    the check fails, the result is the SignatureInvalid error with the zero
    record, whatever [json.Unmarshal] would do with the payload (it is not
    consulted), and so never a DecodeError; a successful return or a
    DecodeError comes only after a check that passed; and a payload segment
    that is not valid base64 gives the payload's MalformedCredential error,
    whatever the signature. *)
Theorem validateLicense_unmarshals_after_verification
        (env : Env) (c : Config) (license : list byte) :
  (forall e,
     signatureCheck env c license (Some e) ->
     forall u,
       validateLicense (withUnmarshal env u) c license
         = Ret (zeroLicense, Some (SignatureInvalid e)) /\
       forall e', validateLicense (withUnmarshal env u) c license
                  <> Ret (zeroLicense, Some (DecodeError e')))
  /\
  (forall lic err,
     validateLicense env c license = Ret (lic, err) ->
     err = None \/ (exists e, err = Some (DecodeError e)) ->
     signatureCheck env c license None)
  /\
  (forall block key dataEnc sigEnc out e,
     pem_Decode env (publicKeyPem env c) = Some block ->
     x509_ParsePKIXPublicKey env (pem.Bytes block) = inl (RSAPublicKey key) ->
     bytes.Split (bytes.TrimSpace (trimUnicodeSpace env) license) "."%byte
       = [dataEnc; sigEnc] ->
     base64.DecodeString base64.StdEncoding (string_of_list_byte dataEnc) = (out, Some e) ->
     validateLicense env c license = Ret (zeroLicense, Some (MalformedData e))).
Proof.
  split; [|split].
  - intros e (block & key & dataEnc & sigEnc & data & sig & Hp & Hk & Hsp & Hd & Hs & Hv) u.
    assert (validateLicense (withUnmarshal env u) c license
            = Ret (zeroLicense, Some (SignatureInvalid e))) as Heq.
    { unfold validateLicense, publicKeyPem in *. simpl.
      rewrite Hp, Hk, Hsp, Hd, Hs, Hv. reflexivity. }
    split; [exact Heq|]. intros e'. rewrite Heq. discriminate.
  - apply validateLicense_interprets_after_check.
  - intros block key dataEnc sigEnc out e Hp Hk Hsp Hd.
    unfold validateLicense. rewrite Hp, Hk, Hsp, Hd. reflexivity.
Qed.

Section Locator.
Variable env : Env.

Lemma readLicense_inline c s :
  License c <> "" ->
  readLicense env c s =
  Ret ((bytes_of (License c), None),
       {| logs := logs s ++ [debugEntry "Loading explicitly defined Redpanda Enterprise license"];
          reads := reads s; ticks := ticks s; shared := shared s |}).
Proof.
  intros H. unfold readLicense. rewrite (string_eqb_neq _ _ H). reflexivity.
Qed.

Lemma readLicense_explicit c s :
  License c = "" -> LicenseFilepath c <> "" ->
  readLicense env c s =
  Ret (match os_ReadFile env (LicenseFilepath c) with
       | (_, Some e) => ([], Some (SourceReadError e))
       | (contents, None) => (contents, None)
       end,
       {| logs := logs s
                  ++ [debugEntry "Loading Redpanda Enterprise license from explicit file path"];
          reads := reads s ++ [LicenseFilepath c];
          ticks := ticks s; shared := shared s |}).
Proof.
  intros H0 H. unfold readLicense. rewrite H0, (string_eqb_neq _ _ H). simpl.
  unfold_m. simpl.
  destruct (os_ReadFile env (LicenseFilepath c)) as [b [e|]]; reflexivity.
Qed.

Lemma readLicense_default_error c s b e :
  License c = "" -> LicenseFilepath c = "" ->
  os_ReadFile env (defaultLicenseFilepath c) = (b, Some e) ->
  readLicense env c s =
  Ret (([], if os_IsNotExist e then None else Some (DefaultReadError e)),
       {| logs := logs s; reads := reads s ++ [defaultLicenseFilepath c];
          ticks := ticks s; shared := shared s |}).
Proof.
  intros H0 H1 H. unfold readLicense. rewrite H0, H1. simpl.
  unfold_m. rewrite H. destruct (os_IsNotExist e); reflexivity.
Qed.

(** The locator never reads the clock. *)
Lemma readLicense_ticks c s r s' :
  readLicense env c s = Ret (r, s') -> ticks s' = ticks s.
Proof.
  unfold readLicense.
  destruct (negb (License c =? "")%string); [unfold_m; intros [= _ <-]; reflexivity|].
  destruct (negb (LicenseFilepath c =? "")%string); unfold_m.
  - destruct (os_ReadFile env (LicenseFilepath c)) as [b [e|]];
      intros [= _ <-]; reflexivity.
  - destruct (os_ReadFile env (defaultLicenseFilepath c)) as [b [e|]].
    + destruct (negb (os_IsNotExist e)); intros [= _ <-]; reflexivity.
    + intros [= _ <-]; reflexivity.
Qed.

Lemma nonempty_length (b : list byte) : b <> [] -> (0 <? Z.of_nat (List.length b)) = true.
Proof. destruct b; [congruence|]. intros _. apply Z.ltb_lt. simpl. lia. Qed.

(** The load on a credential that was found. *)
Lemma readAndValidateLicense_found c s b s1 :
  readLicense env c s = Ret ((b, None), s1) -> b <> [] ->
  readAndValidateLicense env c s =
  match validateLicense env c b with
  | Panic r => Panic r
  | Ret (_, Some e) => Ret ((zeroLicense, Some (LicenseInvalid e)), s1)
  | Ret (license, None) =>
      if Type_ license =? 0 then Ret ((zeroLicense, Some (trialError)), s1)
      else checkAndReport env license s1
  end.
Proof.
  intros H Hb. unfold readAndValidateLicense. unfold bind at 1. rewrite H.
  rewrite (nonempty_length _ Hb). unfold bind, lift.
  destruct (validateLicense env c b) as [[lic [e|]]|]; try reflexivity.
  destruct (Type_ lic =? 0); reflexivity.
Qed.

(** The load when the locator failed. *)
Lemma readAndValidateLicense_unreadable c s b e s1 :
  readLicense env c s = Ret ((b, Some e), s1) ->
  readAndValidateLicense env c s = Ret ((zeroLicense, Some e), s1).
Proof.
  intros H. unfold readAndValidateLicense. unfold bind at 1. rewrite H. reflexivity.
Qed.

(** The load when no credential was found. *)
Lemma readAndValidateLicense_absent c s s1 :
  readLicense env c s = Ret (([], None), s1) ->
  readAndValidateLicense env c s =
  checkAndReport env (fallbackLicense (clock env (ticks s1)))
    {| logs := logs s1; reads := reads s1; ticks := S (ticks s1); shared := shared s1 |}.
Proof.
  intros H. unfold readAndValidateLicense. unfold bind at 1. rewrite H.
  change (0 <? Z.of_nat (List.length (@nil byte))) with false. cbv iota.
  unfold bind at 1. unfold Now. rewrite ten_years. reflexivity.
Qed.

Lemma checkAndReport_run lic s :
  checkAndReport env lic s =
  if Expiry lic <=? time.Unix (clock env (ticks s)) then
    Ret ((zeroLicense, Some (Expired (Expiry lic))),
         {| logs := logs s; reads := reads s; ticks := S (ticks s); shared := shared s |})
  else
    Ret ((lic, None),
         {| logs := logs s ++
              [{| level := LevelDebug;
                  fields := [("license_org", FString (Organization lic));
                             ("license_type", FString (typeDisplayName env (Type_ lic)));
                             ("expires_at", FString (formatRFC3339 env (Expiry lic)))];
                  message := "Successfully loaded Redpanda license" |}];
            reads := reads s; ticks := S (ticks s); shared := shared s |}).
Proof.
  unfold checkAndReport, bind. rewrite CheckExpiry_run.
  destruct (Expiry lic <=? _); reflexivity.
Qed.

(** With a PEM block in the configured key, the verifier returns. *)
Lemma validateLicense_returns c b :
  pem_Decode env (publicKeyPem env c) <> None ->
  exists r, validateLicense env c b = Ret r.
Proof.
  unfold validateLicense. intros H.
  repeat match goal with
         | |- context [match ?x with _ => _ end] => destruct x
         end; solve [eauto | congruence].
Qed.

(** With a PEM block in the configured key, the load returns. *)
Lemma readAndValidateLicense_returns c s :
  pem_Decode env (publicKeyPem env c) <> None ->
  exists r s1, readAndValidateLicense env c s = Ret (r, s1).
Proof.
  intros H. destruct (readLicense_returns env c s) as ([b [e|]] & s1 & HL).
  - rewrite (readAndValidateLicense_unreadable c s b e s1 HL). eauto.
  - destruct b as [|x b].
    + rewrite (readAndValidateLicense_absent c s s1 HL), checkAndReport_run.
      destruct (_ <=? _); eauto.
    + assert (x :: b <> []) as Hb by discriminate.
      rewrite (readAndValidateLicense_found c s _ s1 HL Hb).
      destruct (validateLicense_returns c (x :: b) H) as ([lic [e|]] & ->); [now eauto|].
      destruct (Type_ lic =? 0); [now eauto|].
      rewrite checkAndReport_run. destruct (_ <=? _); eauto.
Qed.

(** When [RegisterService] returns, the snapshot is set. *)
Lemma RegisterService_sets_snapshot c s s2 :
  RegisterService env c s = Ret (tt, s2) ->
  exists lic, shared s2 = Some {| loadedLicense := Some lic; conf := c |}.
Proof.
  unfold RegisterService. unfold bind at 1.
  destruct (readAndValidateLicense env c s) as [[[lic [e|]] s1]|]; [| |discriminate];
    unfold_m; intros [= <-]; eexists; reflexivity.
Qed.

(** The load reads the files the locator reads, and no other. *)
Lemma readAndValidateLicense_reads c s r s' :
  readAndValidateLicense env c s = Ret (r, s') ->
  exists r1 s1, readLicense env c s = Ret (r1, s1) /\ reads s' = reads s1.
Proof.
  unfold readAndValidateLicense. unfold bind at 1.
  destruct (readLicense env c s) as [[[b [e0|]] s0]|]; unfold ret; [| |discriminate].
  - intros [= _ <-]. eauto.
  - destruct (0 <? Z.of_nat (List.length b)).
    + unfold bind, lift.
      destruct (validateLicense env c b) as [[l [e1|]]|]; [| |discriminate].
      * intros [= _ <-]. eauto.
      * destruct (Type_ l =? 0); [intros [= _ <-]; now eauto|].
        rewrite checkAndReport_run. destruct (_ <=? _); intros [= _ <-]; eauto.
    + unfold bind at 1. unfold Now. rewrite checkAndReport_run.
      destruct (_ <=? _); intros [= _ <-]; eauto.
Qed.

End Locator.

(** C2 (the code does not do this in one case).  On an error return of the
    load, [RegisterService] logs the error at error level and registers a
    service whose snapshot holds the zero record (type 0, expiry 0), and
    whenever it returns the snapshot is set.  But it does not always return:
    when a credential was found (inline or in a file, well-formed or not)
    and [pem.Decode] finds no PEM block in the configured key, the nil
    [block.Bytes] of [validateLicense] panics, the load and the
    construction abort with it, no error is logged and no service is
    registered.  That is the only way: with a PEM block in the key, or with
    no credential found, the construction returns. *)
Theorem RegisterService_aborts_on_nil_block
        (env : Env) (c : Config) (s : State) :
  (forall b s1,
     readLicense env c s = Ret ((b, None), s1) ->
     b <> [] ->
     pem_Decode env (publicKeyPem env c) = None ->
     readAndValidateLicense env c s = Panic nilDereference /\
     RegisterService env c s = Panic nilDereference)
  /\
  (pem_Decode env (publicKeyPem env c) <> None \/
   (forall b s1, readLicense env c s = Ret ((b, None), s1) -> b = []) ->
   exists s2, RegisterService env c s = Ret (tt, s2))
  /\
  (forall lic e s1,
     readAndValidateLicense env c s = Ret ((lic, Some e), s1) ->
     exists s2,
       RegisterService env c s = Ret (tt, s2) /\
       logs s2 = logs s1 ++ [{| level := LevelError; fields := [("error", FError e)];
                                message := "Failed to read Redpanda License" |}] /\
       shared s2 = Some {| loadedLicense := Some zeroLicense; conf := c |} /\
       Type_ zeroLicense = 0 /\ Expiry zeroLicense = 0)
  /\
  (forall s2,
     RegisterService env c s = Ret (tt, s2) ->
     exists lic, shared s2 = Some {| loadedLicense := Some lic; conf := c |}).
Proof.
  split; [|split; [|split]].
  - intros b s1 HL Hb Hp.
    assert (readAndValidateLicense env c s = Panic nilDereference) as HR.
    { rewrite (readAndValidateLicense_found env c s b s1 HL Hb).
      unfold validateLicense. rewrite Hp. reflexivity. }
    split; [exact HR|].
    unfold RegisterService. unfold bind at 1. rewrite HR. reflexivity.
  - intros [Hp|Hnone].
    + destruct (readAndValidateLicense_returns env c s Hp) as ([lic [e|]] & s1 & HR).
      * rewrite (RegisterService_after_error _ _ _ _ _ _ HR). eauto.
      * rewrite (RegisterService_after_success _ _ _ _ _ HR). eauto.
    + destruct (readLicense_returns env c s) as ([b [e|]] & s1 & HL).
      * pose proof (readAndValidateLicense_unreadable env c s b e s1 HL) as HR.
        rewrite (RegisterService_after_error _ _ _ _ _ _ HR). eauto.
      * pose proof (Hnone b s1 HL) as ->.
        pose proof (readAndValidateLicense_absent env c s s1 HL) as HR.
        rewrite checkAndReport_run in HR. destruct (_ <=? _).
        -- rewrite (RegisterService_after_error _ _ _ _ _ _ HR). eauto.
        -- rewrite (RegisterService_after_success _ _ _ _ _ HR). eauto.
  - intros lic e s1 H. eexists.
    split; [apply (RegisterService_after_error _ _ _ _ _ _ H)|]. simpl. auto.
  - apply RegisterService_sets_snapshot.
Qed.

(** C3. Absent versus broken.  With no inline credential: when no file
    path is configured either and the default path does not exist, the load
    succeeds with the synthesized record (type -1, expiry ten years after
    the clock reading), provided the clock does not jump ten years between
    that reading and the one of the expiry check, and [RegisterService]
    publishes it; when a configured file path cannot be read (it does not
    exist, or any other error), the load fails with the read error, nothing
    is synthesized and the clock is never read. *)
Theorem absent_vs_broken (env : Env) (c : Config) (s : State) :
  License c = "" ->
  (LicenseFilepath c = "" ->
   forall b e,
     os_ReadFile env (defaultLicenseFilepath c) = (b, Some e) ->
     os_IsNotExist e = true ->
     time.Unix (clock env (S (ticks s))) < time.Unix (clock env (ticks s)) + 315360000 ->
     let fallback := {| Version := 0; Organization := ""; Type_ := -1;
                        Expiry := time.Unix (clock env (ticks s)) + 315360000 |} in
     exists s1 s2,
       readAndValidateLicense env c s = Ret ((fallback, None), s1) /\
       RegisterService env c s = Ret (tt, s2) /\
       shared s2 = Some {| loadedLicense := Some fallback; conf := c |} /\
       Forall (fun entry => level entry <> LevelError) (skipn (List.length (logs s)) (logs s2)))
  /\
  (LicenseFilepath c <> "" ->
   forall b e,
     os_ReadFile env (LicenseFilepath c) = (b, Some e) ->
     exists s1 s2,
       readAndValidateLicense env c s = Ret ((zeroLicense, Some (SourceReadError e)), s1) /\
       ticks s1 = ticks s /\
       RegisterService env c s = Ret (tt, s2) /\
       shared s2 = Some {| loadedLicense := Some zeroLicense; conf := c |}).
Proof.
  intros H0. split.
  - intros H1 b e Hr Hne Hclock fallback.
    pose proof (readLicense_default_error env c s b e H0 H1 Hr) as HL.
    rewrite Hne in HL.
    pose proof (readAndValidateLicense_absent env c s _ HL) as HR.
    rewrite checkAndReport_run in HR. cbn [Expiry fallbackLicense ticks] in HR.
    replace (_ <=? _) with false in HR by (symmetry; apply Z.leb_gt; exact Hclock).
    do 2 eexists. split; [exact HR|].
    split; [apply (RegisterService_after_success _ _ _ _ _ HR)|].
    split; [reflexivity|].
    cbn [logs]. rewrite skipn_app, skipn_all, Nat.sub_diag. simpl.
    constructor; [simpl; discriminate|constructor].
  - intros H1 b e Hr.
    pose proof (readLicense_explicit env c s H0 H1) as HL. rewrite Hr in HL.
    pose proof (readAndValidateLicense_unreadable env c s _ _ _ HL) as HR.
    do 2 eexists. split; [exact HR|]. split; [reflexivity|].
    split; [apply (RegisterService_after_error _ _ _ _ _ _ HR)|reflexivity].
Qed.

(** C4. Priority of the sources.  A non-empty inline credential is
    returned as it is and no file is read, by the locator or by the rest of
    the load; with an empty inline credential and a non-empty file path,
    exactly that file is read (the default path is not), and its contents
    or its read error are returned. *)
Theorem readLicense_priority (env : Env) (c : Config) (s : State) :
  (License c <> "" ->
   (exists s1,
      readLicense env c s = Ret ((bytes_of (License c), None), s1) /\
      reads s1 = reads s) /\
   (forall r s2, readAndValidateLicense env c s = Ret (r, s2) -> reads s2 = reads s))
  /\
  (License c = "" -> LicenseFilepath c <> "" ->
   (exists r s1,
      readLicense env c s = Ret (r, s1) /\
      reads s1 = reads s ++ [LicenseFilepath c] /\
      r = match os_ReadFile env (LicenseFilepath c) with
          | (_, Some e) => ([], Some (SourceReadError e))
          | (contents, None) => (contents, None)
          end) /\
   (forall r s2, readAndValidateLicense env c s = Ret (r, s2) ->
                 reads s2 = reads s ++ [LicenseFilepath c])).
Proof.
  split.
  - intros H. pose proof (readLicense_inline env c s H) as HL. split.
    + eexists. split; [exact HL|reflexivity].
    + intros r s2 HR.
      destruct (readAndValidateLicense_reads env c s r s2 HR) as (r1 & s1 & H1 & ->).
      rewrite HL in H1. injection H1 as _ <-. reflexivity.
  - intros H0 H1. pose proof (readLicense_explicit env c s H0 H1) as HL. split.
    + do 2 eexists. split; [exact HL|]. split; reflexivity.
    + intros r s2 HR.
      destruct (readAndValidateLicense_reads env c s r s2 HR) as (r1 & s1 & H2 & ->).
      rewrite HL in H2. injection H2 as _ <-. reflexivity.
Qed.

(** C5 (the code does not do this).  When [pem.Decode] finds no PEM block
    in the configured key, it returns a nil block and [validateLicense]
    panics on [block.Bytes] instead of returning a key-parse error; with an
    inline credential the panic goes through [RegisterService]. *)
Theorem validateLicense_nil_block_panics
        (env : Env) (c : Config) (license : list byte) (s : State) :
  pem_Decode env (publicKeyPem env c) = None ->
  validateLicense env c license = Panic nilDereference /\
  (License c <> "" -> RegisterService env c s = Panic nilDereference).
Proof.
  intros H.
  assert (forall l, validateLicense env c l = Panic nilDereference) as HP.
  { intros l. unfold validateLicense. rewrite H. reflexivity. }
  split; [apply HP|]. intros HL.
  pose proof (readLicense_inline env c s HL) as HR.
  assert (bytes_of (License c) <> []) as Hne.
  { destruct (License c); [congruence|discriminate]. }
  unfold RegisterService. unfold bind at 1.
  rewrite (readAndValidateLicense_found env c s _ _ HR Hne), HP. reflexivity.
Qed.

(** C6. Trial rejection.  When the credential found verifies and decodes
    to a record of type 0, whatever its other fields, the load fails with
    the trial error and the zero record, and [RegisterService] logs that
    error and publishes the zero record, not the decoded one. *)
Theorem trial_rejected
        (env : Env) (c : Config) (s s1 : State) (b : list byte) (lic : RedpandaLicense) :
  readLicense env c s = Ret ((b, None), s1) ->
  b <> [] ->
  validateLicense env c b = Ret (lic, None) ->
  Type_ lic = 0 ->
  readAndValidateLicense env c s =
    Ret ((zeroLicense,
          Some (ErrorsNew "trial license detected, Redpanda Connect does not support enterprise license trials")),
         s1) /\
  exists s2,
    RegisterService env c s = Ret (tt, s2) /\
    logs s2 = logs s1 ++ [errorEntry (trialError)] /\
    shared s2 = Some {| loadedLicense := Some zeroLicense; conf := c |}.
Proof.
  intros HL Hb HV HT.
  pose proof (readAndValidateLicense_found env c s b s1 HL Hb) as HR.
  rewrite HV, HT in HR. simpl in HR.
  split; [exact HR|]. eexists.
  split; [apply (RegisterService_after_error _ _ _ _ _ _ HR)|]. split; reflexivity.
Qed.

(** C7. Expiry boundary.  [CheckExpiry] returns the Expired condition
    exactly when [expiry <= now] ([now] being the clock reading it takes, in
    seconds), and nothing when [expiry] is later, one second later
    included; a load whose verified, non-trial record fails the check
    returns that error, and [RegisterService] publishes the zero record. *)
Theorem CheckExpiry_boundary (env : Env) (lic : RedpandaLicense) (s : State) :
  let now := time.Unix (clock env (ticks s)) in
  (Expiry lic <= now <->
   exists s', CheckExpiry env lic s = Ret (Some (Expired (Expiry lic)), s')) /\
  (now < Expiry lic <-> exists s', CheckExpiry env lic s = Ret (None, s')) /\
  (Expiry lic = now + 1 -> exists s', CheckExpiry env lic s = Ret (None, s')) /\
  (forall c s0 b,
     readLicense env c s0 = Ret ((b, None), s) -> b <> [] ->
     validateLicense env c b = Ret (lic, None) -> Type_ lic <> 0 ->
     Expiry lic <= now ->
     exists s1 s2,
       readAndValidateLicense env c s0 = Ret ((zeroLicense, Some (Expired (Expiry lic))), s1) /\
       RegisterService env c s0 = Ret (tt, s2) /\
       shared s2 = Some {| loadedLicense := Some zeroLicense; conf := c |}).
Proof.
  intros now. subst now. rewrite CheckExpiry_run.
  destruct (Z.leb_spec (Expiry lic) (time.Unix (clock env (ticks s)))) as [Hle|Hgt].
  - split; [split; [eauto|auto]|]. split; [split; [lia|intros [s' [=]]]|].
    split; [lia|]. intros c s0 b HL Hb HV HT _.
    pose proof (readAndValidateLicense_found env c s0 b s HL Hb) as HR.
    rewrite HV in HR. apply Z.eqb_neq in HT. rewrite HT, checkAndReport_run in HR.
    replace (_ <=? _) with true in HR by (symmetry; apply Z.leb_le; exact Hle).
    do 2 eexists. split; [exact HR|].
    split; [apply (RegisterService_after_error _ _ _ _ _ _ HR)|reflexivity].
  - split; [split; [lia|intros [s' [=]]]|]. split; [split; [eauto|auto]|].
    split; [eauto|]. intros; lia.
Qed.

(** C8 (as the code has it).  On a credential of two parts, with a key
    that parses: a payload segment that is the padded standard base64
    encoding of some bytes decodes to those bytes, and the verifier does not
    fail with the payload's MalformedCredential error; a payload segment
    that contains a character of the URL-safe alphabet only, ['-'] or ['_'],
    is rejected with that error. *)
Theorem payload_segment_standard_alphabet_only
        (env : Env) (c : Config) (license : list byte)
        (block : pem.Block) (key : rsa.PublicKey) (dataEnc sigEnc : list byte) :
  pem_Decode env (publicKeyPem env c) = Some block ->
  x509_ParsePKIXPublicKey env (pem.Bytes block) = inl (RSAPublicKey key) ->
  bytes.Split (bytes.TrimSpace (trimUnicodeSpace env) license) "."%byte = [dataEnc; sigEnc] ->
  (forall payload,
     string_of_list_byte dataEnc = base64.EncodeToString base64.StdEncoding payload ->
     base64.DecodeString base64.StdEncoding (string_of_list_byte dataEnc) = (payload, None) /\
     forall e, validateLicense env c license <> Ret (zeroLicense, Some (MalformedData e)))
  /\
  (In "-"%byte dataEnc \/ In "_"%byte dataEnc ->
   exists e, validateLicense env c license = Ret (zeroLicense, Some (MalformedData e))).
Proof.
  intros Hp Hk Hsp. split.
  - intros payload Henc.
    pose proof (base64_facts.DecodeString_EncodeToString_std payload) as HD.
    rewrite <- Henc in HD.
    split; [exact HD|]. intros e.
    unfold validateLicense, MalformedData. rewrite Hp, Hk, Hsp, HD.
    destruct (base64.DecodeString base64.StdEncoding (string_of_list_byte sigEnc))
      as [sig [e2|]]; [discriminate|].
    destruct (rsa_VerifyPKCS1v15 env key _ sig); [discriminate|].
    destruct (json_Unmarshal env payload zeroLicense) as [l [e4|]]; discriminate.
  - intros Hin.
    destruct (base64_facts.DecodeString_std_rejects_urlsafe dataEnc Hin) as (out & e & HD).
    exists e. unfold validateLicense, MalformedData. rewrite Hp, Hk, Hsp, HD. reflexivity.
Qed.

(** C9. The trial check comes before the expiry check.  When the
    credential found verifies and decodes to a record of type 0 whose expiry
    has passed (the expiry check, run on it, would fail), the load fails
    with the trial error, which is not the Expired condition, and the clock
    has not been read: the expiry check was not reached. *)
Theorem trial_checked_before_expiry
        (env : Env) (c : Config) (s s1 : State) (b : list byte) (lic : RedpandaLicense) :
  readLicense env c s = Ret ((b, None), s1) ->
  b <> [] ->
  validateLicense env c b = Ret (lic, None) ->
  Type_ lic = 0 ->
  Expiry lic <= time.Unix (clock env (ticks s1)) ->
  (exists s', CheckExpiry env lic s1 = Ret (Some (Expired (Expiry lic)), s')) /\
  exists e s',
    readAndValidateLicense env c s = Ret ((zeroLicense, Some e), s') /\
    e = trialError /\
    (forall x, e <> Expired x) /\
    ticks s' = ticks s.
Proof.
  intros HL Hb HV HT HE. split.
  - rewrite CheckExpiry_run.
    replace (_ <=? _) with true by (symmetry; apply Z.leb_le; exact HE). eauto.
  - pose proof (readAndValidateLicense_found env c s b s1 HL Hb) as HR.
    rewrite HV, HT in HR. simpl in HR.
    exists trialError, s1. split; [exact HR|]. split; [reflexivity|].
    split; [discriminate|]. apply (readLicense_ticks env c s _ _ HL).
Qed.

(** C10. An error on the default path other than not-found is fatal.  With
    neither an inline credential nor a file path configured, when reading
    the default path fails with an error that [os.IsNotExist] does not
    recognise, [readLicense] returns that error wrapped, the load fails
    with it, and [RegisterService] logs it and publishes the zero record,
    not a record of type -1. *)
Theorem default_path_error_is_fatal
        (env : Env) (c : Config) (s : State) (b : list byte) (e : error) :
  License c = "" ->
  LicenseFilepath c = "" ->
  os_ReadFile env (defaultLicenseFilepath c) = (b, Some e) ->
  os_IsNotExist e = false ->
  exists s1 s2,
    readLicense env c s
      = Ret (([], Some (Errorf "failed to read default path license file: %w" e)), s1) /\
    readAndValidateLicense env c s = Ret ((zeroLicense, Some (DefaultReadError e)), s1) /\
    RegisterService env c s = Ret (tt, s2) /\
    logs s2 = logs s ++ [errorEntry (DefaultReadError e)] /\
    shared s2 = Some {| loadedLicense := Some zeroLicense; conf := c |} /\
    Type_ zeroLicense <> -1.
Proof.
  intros H0 H1 Hr Hne.
  pose proof (readLicense_default_error env c s b e H0 H1 Hr) as HL. rewrite Hne in HL.
  pose proof (readAndValidateLicense_unreadable env c s _ _ _ HL) as HR.
  do 2 eexists. split; [exact HL|]. split; [exact HR|].
  split; [apply (RegisterService_after_error _ _ _ _ _ _ HR)|].
  split; [reflexivity|]. split; [reflexivity|]. discriminate.
Qed.

(** ** The theorems at work on examples *)

Lemma validateLicense_unmarshals_after_verification_witness :
  (signatureCheck (Demo.env []) (Demo.config "" "") (Demo.forge Demo.enterprisePayload)
     (Some Demo.verificationError) /\
   forall u,
     validateLicense (withUnmarshal (Demo.env []) u) (Demo.config "" "")
       (Demo.forge Demo.enterprisePayload)
       = Ret (zeroLicense, Some (SignatureInvalid Demo.verificationError)) /\
     forall e', validateLicense (withUnmarshal (Demo.env []) u) (Demo.config "" "")
                  (Demo.forge Demo.enterprisePayload)
                <> Ret (zeroLicense, Some (DecodeError e')))
  /\
  signatureCheck (Demo.env []) (Demo.config "" "") (Demo.sign Demo.enterprisePayload) None
  /\
  validateLicense (Demo.env []) (Demo.config "" "") (bytes_of "!!!!.Zm9yZ2Vk")
    = Ret (zeroLicense, Some (MalformedData (CorruptInputError 0))).
Proof.
  assert (signatureCheck (Demo.env []) (Demo.config "" "")
            (Demo.forge Demo.enterprisePayload) (Some Demo.verificationError)) as H.
  { exists Demo.rsaBlock, Demo.rsaKey,
      (base64.Encode base64.StdEncoding Demo.enterprisePayload),
      (base64.Encode base64.StdEncoding (bytes_of "forged")),
      Demo.enterprisePayload, (bytes_of "forged").
    repeat split; vm_compute; reflexivity. }
  split; [split; [exact H|]|split].
  - exact (proj1 (validateLicense_unmarshals_after_verification _ _ _) _ H).
  - refine (proj1 (proj2 (validateLicense_unmarshals_after_verification
                            (Demo.env []) (Demo.config "" "")
                            (Demo.sign Demo.enterprisePayload)))
              {| Version := 1; Organization := "acme"; Type_ := 2; Expiry := 4102444800 |}
              None _ (or_introl eq_refl)).
    vm_compute. reflexivity.
  - refine (proj2 (proj2 (validateLicense_unmarshals_after_verification
                            (Demo.env []) (Demo.config "" "") (bytes_of "!!!!.Zm9yZ2Vk")))
              Demo.rsaBlock Demo.rsaKey (bytes_of "!!!!") (bytes_of "Zm9yZ2Vk")
              [] (CorruptInputError 0) _ _ _ _); vm_compute; reflexivity.
Defined.

(** C1 as the spec has it fails: on a credential whose payload segment is
    not valid base64 and whose signature does not verify (the key parses,
    there are two parts, the signature segment decodes, and
    [rsa.VerifyPKCS1v15] rejects the signature for the digest of the payload
    segment), the result is the payload's MalformedCredential error, not
    SignatureInvalid: the payload segment is base64-decoded before the
    signature is checked. *)
Lemma malformed_payload_reported_before_signature :
  let env := Demo.env [] in
  let c := Demo.config "" "" in
  let license := bytes_of "!!!!.Zm9yZ2Vk" in
  pem_Decode env (publicKeyPem env c) = Some Demo.rsaBlock /\
  x509_ParsePKIXPublicKey env (pem.Bytes Demo.rsaBlock) = inl (RSAPublicKey Demo.rsaKey) /\
  bytes.Split (bytes.TrimSpace (trimUnicodeSpace env) license) "."%byte
    = [bytes_of "!!!!"; bytes_of "Zm9yZ2Vk"] /\
  base64.DecodeString base64.StdEncoding "Zm9yZ2Vk" = (bytes_of "forged", None) /\
  rsa_VerifyPKCS1v15 env Demo.rsaKey (sha256_Sum256 env (bytes_of "!!!!")) (bytes_of "forged")
    = Some Demo.verificationError /\
  validateLicense env c license
    = Ret (zeroLicense, Some (MalformedData (CorruptInputError 0))) /\
  validateLicense env c license
    <> Ret (zeroLicense, Some (SignatureInvalid Demo.verificationError)).
Proof. vm_compute. repeat split. discriminate. Qed.

Lemma RegisterService_aborts_on_nil_block_witness :
  let c := {| License := "payload.signature"; LicenseFilepath := "";
              customPublicKeyPem := bytes_of "not a pem";
              customDefaultLicenseFilepath := "" |} in
  readLicense (Demo.env []) c initialState
    = Ret ((bytes_of "payload.signature", None), Demo.afterInline) /\
  pem_Decode (Demo.env []) (publicKeyPem (Demo.env []) c) = None /\
  readAndValidateLicense (Demo.env []) c initialState = Panic nilDereference /\
  RegisterService (Demo.env []) c initialState = Panic nilDereference.
Proof.
  intros c. split; [reflexivity|]. split; [reflexivity|].
  refine (proj1 (RegisterService_aborts_on_nil_block (Demo.env []) c initialState)
            (bytes_of "payload.signature") Demo.afterInline _ _ _).
  - reflexivity.
  - discriminate.
  - reflexivity.
Defined.

Lemma absent_vs_broken_witness :
  (let fallback := {| Version := 0; Organization := ""; Type_ := -1; Expiry := 2015360000 |} in
   exists s1 s2,
     readAndValidateLicense (Demo.env []) (Demo.config "" "") initialState
       = Ret ((fallback, None), s1) /\
     RegisterService (Demo.env []) (Demo.config "" "") initialState = Ret (tt, s2) /\
     shared s2 = Some {| loadedLicense := Some fallback; conf := Demo.config "" "" |} /\
     Forall (fun entry => level entry <> LevelError)
            (skipn (List.length (logs initialState)) (logs s2)))
  /\
  (exists s1 s2,
     readAndValidateLicense (Demo.env []) (Demo.config "" "/nonexistent") initialState
       = Ret ((zeroLicense,
               Some (SourceReadError (PathError "open" "/nonexistent" ENOENT))), s1) /\
     ticks s1 = ticks initialState /\
     RegisterService (Demo.env []) (Demo.config "" "/nonexistent") initialState
       = Ret (tt, s2) /\
     shared s2 = Some {| loadedLicense := Some zeroLicense;
                         conf := Demo.config "" "/nonexistent" |}).
Proof.
  split.
  - apply (proj1 (absent_vs_broken (Demo.env []) (Demo.config "" "") initialState eq_refl)
             eq_refl [] (PathError "open" "/etc/redpanda/redpanda.license" ENOENT)).
    + reflexivity.
    + reflexivity.
    + vm_compute. reflexivity.
  - apply (proj2 (absent_vs_broken (Demo.env []) (Demo.config "" "/nonexistent")
                    initialState eq_refl)) with (b := []).
    + discriminate.
    + reflexivity.
Defined.

Lemma readLicense_priority_witness :
  ((exists s1,
      readLicense (Demo.env Demo.twoFiles) Demo.threeSources initialState
        = Ret ((bytes_of "inline.credential", None), s1) /\
      reads s1 = []) /\
   (forall r s2,
      readAndValidateLicense (Demo.env Demo.twoFiles) Demo.threeSources initialState
        = Ret (r, s2) -> reads s2 = []))
  /\
  ((exists r s1,
      readLicense (Demo.env Demo.twoFiles) Demo.twoSources initialState = Ret (r, s1) /\
      reads s1 = ["/opt/redpanda.license"] /\
      r = (bytes_of "file.credential", None)) /\
   (forall r s2,
      readAndValidateLicense (Demo.env Demo.twoFiles) Demo.twoSources initialState
        = Ret (r, s2) -> reads s2 = ["/opt/redpanda.license"])).
Proof.
  split.
  - refine (proj1 (readLicense_priority (Demo.env Demo.twoFiles) Demo.threeSources
                     initialState) _).
    discriminate.
  - refine (proj2 (readLicense_priority (Demo.env Demo.twoFiles) Demo.twoSources
                     initialState) _ _); [reflexivity|discriminate].
Defined.

Lemma validateLicense_nil_block_panics_witness :
  let c := {| License := "payload.signature"; LicenseFilepath := "";
              customPublicKeyPem := bytes_of "not a pem";
              customDefaultLicenseFilepath := "" |} in
  pem_Decode (Demo.env []) (publicKeyPem (Demo.env []) c) = None /\
  validateLicense (Demo.env []) c (bytes_of "payload.signature") = Panic nilDereference /\
  (License c <> "" -> RegisterService (Demo.env []) c initialState = Panic nilDereference).
Proof.
  intros c. split; [reflexivity|].
  apply (validateLicense_nil_block_panics (Demo.env []) c). reflexivity.
Defined.

Lemma trial_rejected_witness :
  let c := Demo.inline (Demo.sign Demo.trialPayload) in
  let lic := {| Version := 1; Organization := "acme"; Type_ := 0; Expiry := 4102444800 |} in
  validateLicense (Demo.env []) c (Demo.sign Demo.trialPayload) = Ret (lic, None) /\
  readAndValidateLicense (Demo.env []) c initialState =
    Ret ((zeroLicense,
          Some (ErrorsNew "trial license detected, Redpanda Connect does not support enterprise license trials")),
         Demo.afterInline) /\
  exists s2,
    RegisterService (Demo.env []) c initialState = Ret (tt, s2) /\
    logs s2 = logs Demo.afterInline ++ [errorEntry (trialError)] /\
    shared s2 = Some {| loadedLicense := Some zeroLicense; conf := c |}.
Proof.
  intros c lic.
  assert (validateLicense (Demo.env []) c (Demo.sign Demo.trialPayload) = Ret (lic, None))
    as HV by (vm_compute; reflexivity).
  split; [exact HV|].
  apply (trial_rejected (Demo.env []) c initialState Demo.afterInline
           (Demo.sign Demo.trialPayload) lic).
  - vm_compute. reflexivity.
  - vm_compute. discriminate.
  - exact HV.
  - reflexivity.
Defined.

Lemma CheckExpiry_boundary_witness :
  let c := Demo.inline (Demo.sign Demo.expiredPayload) in
  let lic := {| Version := 1; Organization := "acme"; Type_ := 2; Expiry := 1000000000 |} in
  exists s1 s2,
    readAndValidateLicense (Demo.env []) c initialState
      = Ret ((zeroLicense, Some (Expired 1000000000)), s1) /\
    RegisterService (Demo.env []) c initialState = Ret (tt, s2) /\
    shared s2 = Some {| loadedLicense := Some zeroLicense; conf := c |}.
Proof.
  intros c lic.
  apply (proj2 (proj2 (proj2 (CheckExpiry_boundary (Demo.env []) lic Demo.afterInline)))
           c initialState (Demo.sign Demo.expiredPayload)).
  - vm_compute. reflexivity.
  - vm_compute. discriminate.
  - vm_compute. reflexivity.
  - discriminate.
  - vm_compute. discriminate.
Defined.

Lemma payload_segment_standard_alphabet_only_witness :
  (bytes.Split (bytes.TrimSpace (trimUnicodeSpace (Demo.env []))
                  (Demo.sign Demo.questionPayload)) "."%byte
     = [base64.Encode base64.StdEncoding Demo.questionPayload;
        base64.Encode base64.StdEncoding
          (rev (base64.Encode base64.StdEncoding Demo.questionPayload))] /\
   base64.DecodeString base64.StdEncoding
     (base64.EncodeToString base64.StdEncoding Demo.questionPayload)
     = (Demo.questionPayload, None) /\
   forall e, validateLicense (Demo.env []) (Demo.config "" "") (Demo.sign Demo.questionPayload)
             <> Ret (zeroLicense, Some (MalformedData e)))
  /\
  (In "_"%byte (base64.Encode base64.URLEncoding Demo.questionPayload) /\
   exists e, validateLicense (Demo.env []) (Demo.config "" "")
               (Demo.urlCredential Demo.questionPayload)
             = Ret (zeroLicense, Some (MalformedData e))).
Proof.
  split.
  - assert (bytes.Split (bytes.TrimSpace (trimUnicodeSpace (Demo.env []))
                           (Demo.sign Demo.questionPayload)) "."%byte
            = [base64.Encode base64.StdEncoding Demo.questionPayload;
               base64.Encode base64.StdEncoding
                 (rev (base64.Encode base64.StdEncoding Demo.questionPayload))]) as Hsp
        by (vm_compute; reflexivity).
    split; [exact Hsp|].
    refine (proj1 (payload_segment_standard_alphabet_only (Demo.env []) (Demo.config "" "")
                     (Demo.sign Demo.questionPayload) Demo.rsaBlock Demo.rsaKey _ _
                     _ _ Hsp) Demo.questionPayload eq_refl); vm_compute; reflexivity.
  - assert (In "_"%byte (base64.Encode base64.URLEncoding Demo.questionPayload)) as Hin
        by (vm_compute; tauto).
    split; [exact Hin|].
    refine (proj2 (payload_segment_standard_alphabet_only (Demo.env []) (Demo.config "" "")
                     (Demo.urlCredential Demo.questionPayload) Demo.rsaBlock Demo.rsaKey
                     (base64.Encode base64.URLEncoding Demo.questionPayload)
                     (base64.Encode base64.StdEncoding (bytes_of "forged"))
                     _ _ _) (or_intror Hin)); vm_compute; reflexivity.
Defined.

(** C8 as the spec has it fails: the URL-safe encoding of a payload (here
    one whose organization is [who???]) in an otherwise well-formed
    credential, with a key that parses, is not decoded; the verifier
    returns the payload's MalformedCredential error at the first character
    outside the standard alphabet. *)
Lemma urlsafe_payload_is_not_decoded :
  let env := Demo.env [] in
  let c := Demo.config "" "" in
  let dataEnc := base64.Encode base64.URLEncoding Demo.questionPayload in
  let license := Demo.urlCredential Demo.questionPayload in
  string_of_list_byte dataEnc
    = "eyJ2ZXJzaW9uIjoxLCJvcmdhbml6YXRpb24iOiJ3aG8_Pz8iLCJ0eXBlIjoyLCJleHBpcnkiOjQxMDI0NDQ4MDB9" /\
  pem_Decode env (publicKeyPem env c) = Some Demo.rsaBlock /\
  x509_ParsePKIXPublicKey env (pem.Bytes Demo.rsaBlock) = inl (RSAPublicKey Demo.rsaKey) /\
  bytes.Split (bytes.TrimSpace (trimUnicodeSpace env) license) "."%byte
    = [dataEnc; bytes_of "Zm9yZ2Vk"] /\
  base64.DecodeString base64.StdEncoding "Zm9yZ2Vk" = (bytes_of "forged", None) /\
  snd (base64.DecodeString base64.StdEncoding (string_of_list_byte dataEnc))
    = Some (CorruptInputError 43) /\
  validateLicense env c license
    = Ret (zeroLicense, Some (MalformedData (CorruptInputError 43))).
Proof. vm_compute. repeat split. Qed.

Lemma trial_checked_before_expiry_witness :
  let c := Demo.inline (Demo.sign Demo.expiredTrialPayload) in
  let lic := {| Version := 1; Organization := "acme"; Type_ := 0; Expiry := 1000000000 |} in
  validateLicense (Demo.env []) c (Demo.sign Demo.expiredTrialPayload) = Ret (lic, None) /\
  (exists s', CheckExpiry (Demo.env []) lic Demo.afterInline
              = Ret (Some (Expired (Expiry lic)), s')) /\
  exists e s',
    readAndValidateLicense (Demo.env []) c initialState = Ret ((zeroLicense, Some e), s') /\
    e = trialError /\
    (forall x, e <> Expired x) /\
    ticks s' = ticks initialState.
Proof.
  intros c lic.
  assert (validateLicense (Demo.env []) c (Demo.sign Demo.expiredTrialPayload)
          = Ret (lic, None)) as HV by (vm_compute; reflexivity).
  split; [exact HV|].
  apply (trial_checked_before_expiry (Demo.env []) c initialState Demo.afterInline
           (Demo.sign Demo.expiredTrialPayload) lic).
  - vm_compute. reflexivity.
  - vm_compute. discriminate.
  - exact HV.
  - reflexivity.
  - vm_compute. discriminate.
Defined.

Lemma default_path_error_is_fatal_witness :
  let env := Demo.env [("/etc/redpanda/redpanda.license", inr EACCES)] in
  let c := Demo.config "" "" in
  let e := PathError "open" "/etc/redpanda/redpanda.license" EACCES in
  os_ReadFile env (defaultLicenseFilepath c) = ([], Some e) /\
  os_IsNotExist e = false /\
  exists s1 s2,
    readLicense env c initialState
      = Ret (([], Some (Errorf "failed to read default path license file: %w" e)), s1) /\
    readAndValidateLicense env c initialState
      = Ret ((zeroLicense, Some (DefaultReadError e)), s1) /\
    RegisterService env c initialState = Ret (tt, s2) /\
    logs s2 = logs initialState ++ [errorEntry (DefaultReadError e)] /\
    shared s2 = Some {| loadedLicense := Some zeroLicense; conf := c |} /\
    Type_ zeroLicense <> -1.
Proof.
  intros env c e.
  split; [reflexivity|]. split; [reflexivity|].
  apply (default_path_error_is_fatal env c initialState [] e); reflexivity.
Defined.

(** * Beyond the claims: the rest of the load *)

Section Policy.
Variable env : Env.

(** The load on a credential that verifies, is no trial and has not
    expired. *)
Lemma readAndValidateLicense_verified (c : Config) (s s1 : State) (b : list byte)
      (lic : RedpandaLicense) :
  readLicense env c s = Ret ((b, None), s1) ->
  b <> [] ->
  validateLicense env c b = Ret (lic, None) ->
  Type_ lic <> 0 ->
  time.Unix (clock env (ticks s1)) < Expiry lic ->
  readAndValidateLicense env c s
    = Ret ((lic, None),
           {| logs := logs s1 ++ [successEntry env lic]; reads := reads s1;
              ticks := S (ticks s1); shared := shared s1 |}).
Proof.
  intros HL Hb HV HT HE.
  pose proof (readAndValidateLicense_found env c s b s1 HL Hb) as HR.
  rewrite HV in HR. apply Z.eqb_neq in HT. rewrite HT, checkAndReport_run in HR.
  replace (_ <=? _) with false in HR by (symmetry; apply Z.leb_gt; exact HE).
  exact HR.
Qed.

(** X1. A credential that verifies, is no trial and has not expired is
    published as decoded: [RegisterService] logs the success at debug level,
    logs no error and registers a service whose snapshot is exactly the
    record [validateLicense] returned. *)
Theorem verified_license_is_published (c : Config) (s s1 : State) (b : list byte)
        (lic : RedpandaLicense) :
  readLicense env c s = Ret ((b, None), s1) ->
  b <> [] ->
  validateLicense env c b = Ret (lic, None) ->
  Type_ lic <> 0 ->
  time.Unix (clock env (ticks s1)) < Expiry lic ->
  readAndValidateLicense env c s
    = Ret ((lic, None),
           {| logs := logs s1 ++ [successEntry env lic]; reads := reads s1;
              ticks := S (ticks s1); shared := shared s1 |}) /\
  RegisterService env c s
    = Ret (tt, {| logs := logs s1 ++ [successEntry env lic]; reads := reads s1;
                  ticks := S (ticks s1);
                  shared := Some {| loadedLicense := Some lic; conf := c |} |}).
Proof.
  intros HL Hb HV HT HE.
  pose proof (readAndValidateLicense_verified c s s1 b lic HL Hb HV HT HE) as HR.
  split; [exact HR|]. apply (RegisterService_after_success _ _ _ _ _ HR).
Qed.

(** X2. What the load accepts.  A record returned without an error is
    never a trial, and it is either the record of a credential that was
    found and passed the signature check, or, when no credential bytes were
    found, the record synthesized locally. *)
Theorem accepted_license_was_verified (c : Config) (s s' : State) (lic : RedpandaLicense) :
  readAndValidateLicense env c s = Ret ((lic, None), s') ->
  Type_ lic <> 0 /\
  exists b s1,
    readLicense env c s = Ret ((b, None), s1) /\
    ((b <> [] /\ validateLicense env c b = Ret (lic, None) /\
      signatureCheck env c b None)
     \/
     (b = [] /\ lic = {| Version := 0; Organization := ""; Type_ := -1;
                         Expiry := time.Unix (clock env (ticks s1)) + 315360000 |})).
Proof.
  intros H.
  destruct (readLicense_returns env c s) as ([b [e|]] & s1 & HL).
  - rewrite (readAndValidateLicense_unreadable env c s b e s1 HL) in H. discriminate.
  - destruct b as [|x b].
    + rewrite (readAndValidateLicense_absent env c s s1 HL), checkAndReport_run in H.
      destruct (_ <=? _); [discriminate|]. injection H as <- _.
      split; [discriminate|]. exists [], s1. split; [exact HL|]. right. split; reflexivity.
    + assert (x :: b <> []) as Hb by discriminate.
      rewrite (readAndValidateLicense_found env c s _ s1 HL Hb) in H.
      destruct (validateLicense env c (x :: b)) as [[l [e|]]|] eqn:HV; try discriminate.
      destruct (Type_ l =? 0) eqn:HT; [discriminate|].
      rewrite checkAndReport_run in H. destruct (_ <=? _); [discriminate|].
      injection H as <- _. apply Z.eqb_neq in HT.
      split; [exact HT|]. exists (x :: b), s1. split; [exact HL|]. left.
      split; [exact Hb|]. split; [exact HV|].
      apply (validateLicense_interprets_after_check env c (x :: b) l None HV). now left.
Qed.

(** X3. When [RegisterService] panics.  It panics exactly when a
    non-empty credential was found and [pem.Decode] finds no block in the
    configured key; without a credential the key is never looked at. *)
Theorem RegisterService_panics_iff (c : Config) (s : State) :
  (exists r, RegisterService env c s = Panic r) <->
  (exists b s1,
     readLicense env c s = Ret ((b, None), s1) /\ b <> [] /\
     pem_Decode env (publicKeyPem env c) = None).
Proof.
  split.
  - intros [r H].
    destruct (pem_Decode env (publicKeyPem env c)) as [block|] eqn:Hp.
    + assert (pem_Decode env (publicKeyPem env c) <> None) as Hne by congruence.
      destruct (readAndValidateLicense_returns env c s Hne) as ([lic [e|]] & s1 & HR).
      * rewrite (RegisterService_after_error _ _ _ _ _ _ HR) in H. discriminate.
      * rewrite (RegisterService_after_success _ _ _ _ _ HR) in H. discriminate.
    + destruct (readLicense_returns env c s) as ([b [e|]] & s1 & HL).
      * pose proof (readAndValidateLicense_unreadable env c s b e s1 HL) as HR.
        rewrite (RegisterService_after_error _ _ _ _ _ _ HR) in H. discriminate.
      * destruct b as [|x b].
        -- pose proof (readAndValidateLicense_absent env c s s1 HL) as HR.
           rewrite checkAndReport_run in HR. destruct (_ <=? _).
           ++ rewrite (RegisterService_after_error _ _ _ _ _ _ HR) in H. discriminate.
           ++ rewrite (RegisterService_after_success _ _ _ _ _ HR) in H. discriminate.
        -- exists (x :: b), s1. split; [exact HL|]. split; [discriminate|reflexivity].
  - intros (b & s1 & HL & Hb & Hp). exists nilDereference.
    unfold RegisterService. unfold bind at 1.
    rewrite (readAndValidateLicense_found env c s b s1 HL Hb).
    unfold validateLicense. rewrite Hp. reflexivity.
Qed.

End Policy.

Section Logging.
Variable env : Env.

Lemma readLicense_logs_debug c s r s1 :
  readLicense env c s = Ret (r, s1) ->
  exists new, logs s1 = logs s ++ new /\ Forall isDebugEntry new.
Proof.
  unfold readLicense.
  destruct (negb (License c =? "")%string).
  { unfold_m. intros [= _ <-]. eexists. split; [reflexivity|]. repeat constructor. }
  destruct (negb (LicenseFilepath c =? "")%string); unfold_m.
  - destruct (os_ReadFile env (LicenseFilepath c)) as [b [e|]];
      intros [= _ <-]; (eexists; split; [reflexivity|]; repeat constructor).
  - destruct (os_ReadFile env (defaultLicenseFilepath c)) as [b [e|]].
    + destruct (negb (os_IsNotExist e)); intros [= _ <-];
        (exists []; split; [symmetry; apply app_nil_r|constructor]).
    + intros [= _ <-]. eexists. split; [reflexivity|]. repeat constructor.
Qed.

Lemma checkAndReport_logs_debug lic s r s1 :
  checkAndReport env lic s = Ret (r, s1) ->
  exists new, logs s1 = logs s ++ new /\ Forall isDebugEntry new.
Proof.
  rewrite checkAndReport_run. destruct (_ <=? _); intros [= _ <-].
  - exists []. split; [symmetry; apply app_nil_r|constructor].
  - eexists. split; [reflexivity|]. repeat constructor.
Qed.

(** The load itself logs at debug level only. *)
Lemma readAndValidateLicense_logs_debug c s r s1 :
  readAndValidateLicense env c s = Ret (r, s1) ->
  exists new, logs s1 = logs s ++ new /\ Forall isDebugEntry new.
Proof.
  intros H.
  destruct (readLicense_returns env c s) as ([b [e|]] & s0 & HL).
  - rewrite (readAndValidateLicense_unreadable env c s b e s0 HL) in H.
    injection H as _ <-. apply (readLicense_logs_debug _ _ _ _ HL).
  - destruct (readLicense_logs_debug _ _ _ _ HL) as (new0 & E0 & F0).
    assert (forall lic st,
              logs st = logs s0 ->
              checkAndReport env lic st = Ret (r, s1) ->
              exists new, logs s1 = logs s ++ new /\ Forall isDebugEntry new) as Hcheck.
    { intros lic st Est Hc.
      destruct (checkAndReport_logs_debug _ _ _ _ Hc) as (new1 & E1 & F1).
      exists (new0 ++ new1). rewrite E1, Est, E0, app_assoc.
      split; [reflexivity|]. apply Forall_app. split; assumption. }
    destruct b as [|x b].
    + rewrite (readAndValidateLicense_absent env c s s0 HL) in H.
      refine (Hcheck _ _ _ H). reflexivity.
    + assert (x :: b <> []) as Hb by discriminate.
      rewrite (readAndValidateLicense_found env c s _ s0 HL Hb) in H.
      destruct (validateLicense env c (x :: b)) as [[l [e|]]|]; [| |discriminate].
      * injection H as _ <-. eauto.
      * destruct (Type_ l =? 0); [injection H as _ <-; now eauto|].
        apply (Hcheck _ _ eq_refl H).
Qed.

(** X4. The log of a construction.  [RegisterService] only appends to the
    log; what it appends are debug entries of the load, followed by one
    error-level entry carrying the error when the load failed and by nothing
    when it succeeded. *)
Theorem RegisterService_logs_one_error (c : Config) (s s2 : State) :
  RegisterService env c s = Ret (tt, s2) ->
  exists lic err s1 dbg,
    readAndValidateLicense env c s = Ret ((lic, err), s1) /\
    Forall isDebugEntry dbg /\
    logs s2 = logs s ++ dbg ++ match err with
                               | Some e => [errorEntry e]
                               | None => []
                               end /\
    (forall entry, In entry (dbg ++ match err with
                                      | Some e => [errorEntry e]
                                      | None => []
                                      end) ->
                   level entry = LevelError -> err <> None /\ exists e, entry = errorEntry e).
Proof.
  intros H.
  destruct (readAndValidateLicense env c s) as [[[lic err] s1]|] eqn:HR.
  2:{ unfold RegisterService in H. unfold bind at 1 in H. rewrite HR in H. discriminate. }
  destruct (readAndValidateLicense_logs_debug _ _ _ _ HR) as (dbg & E & F).
  exists lic, err, s1, dbg. split; [reflexivity|]. split; [exact F|].
  assert (forall entry, In entry dbg -> level entry = LevelError -> False) as Hdbg.
  { intros entry Hin Hl. rewrite Forall_forall in F. specialize (F entry Hin).
    unfold isDebugEntry in F. congruence. }
  destruct err as [e|].
  - rewrite (RegisterService_after_error _ _ _ _ _ _ HR) in H. injection H as <-.
    cbn [logs]. rewrite E, app_assoc. split; [reflexivity|].
    intros entry Hin Hl. apply in_app_or in Hin. destruct Hin as [Hin|[<-|[]]].
    + destruct (Hdbg entry Hin Hl).
    + split; [discriminate|eauto].
  - rewrite (RegisterService_after_success _ _ _ _ _ HR) in H. injection H as <-.
    cbn [logs]. rewrite E, app_nil_r. split; [reflexivity|].
    intros entry Hin Hl. destruct (Hdbg entry Hin Hl).
Qed.

End Logging.

(** ** Facts about [bytes.TrimSpace] and [bytes.Split] *)

Module bytes_facts.
Import bytes.

Lemma asciiSpace_below_RuneSelf (c : byte) :
  asciiSpace c = true -> (RuneSelf <=? byte_val c) = false.
Proof. destruct c; intros H; try discriminate H; reflexivity. Qed.

Section Trim.
Variable f : list byte -> list byte.

Lemma TrimSpace_allSpace (ws : list byte) : allSpace ws -> TrimSpace f ws = [].
Proof.
  induction 1 as [|c ws Hc _ IH]; [reflexivity|].
  simpl. rewrite (asciiSpace_below_RuneSelf c Hc), Hc. exact IH.
Qed.

Lemma TrimSpace_skip_front (pre s : list byte) :
  allSpace pre -> TrimSpace f (pre ++ s) = TrimSpace f s.
Proof.
  induction 1 as [|c pre Hc _ IH]; [reflexivity|].
  simpl. rewrite (asciiSpace_below_RuneSelf c Hc), Hc. exact IH.
Qed.

Lemma trimSpaceBack_skip (q rs : list byte) :
  allSpace q -> trimSpaceBack f (q ++ rs) = trimSpaceBack f rs.
Proof.
  induction 1 as [|c q Hc _ IH]; [reflexivity|].
  simpl. rewrite (asciiSpace_below_RuneSelf c Hc), Hc. exact IH.
Qed.

Lemma TrimSpace_skip_back (s post : list byte) :
  allASCII s -> allSpace post -> TrimSpace f (s ++ post) = TrimSpace f s.
Proof.
  intros Hs Hpost. induction Hs as [|c s Hc _ IH].
  - simpl. apply TrimSpace_allSpace. exact Hpost.
  - change ((c :: s) ++ post) with (c :: (s ++ post)).
    cbn [TrimSpace]. unfold isASCII in Hc. apply Z.ltb_lt in Hc.
    replace (RuneSelf <=? byte_val c) with false by (symmetry; apply Z.leb_gt; exact Hc).
    destruct (asciiSpace c); [exact IH|].
    change (c :: s ++ post) with ((c :: s) ++ post).
    rewrite rev_app_distr. apply trimSpaceBack_skip.
    unfold allSpace. apply Forall_rev. exact Hpost.
Qed.

(** Surrounding ASCII white space is dropped from an ASCII text. *)
Lemma TrimSpace_surrounded (pre s post : list byte) :
  allSpace pre -> allASCII s -> allSpace post ->
  TrimSpace f (pre ++ s ++ post) = TrimSpace f s.
Proof.
  intros Hpre Hs Hpost.
  rewrite TrimSpace_skip_front by exact Hpre. apply TrimSpace_skip_back; assumption.
Qed.
End Trim.

(** [Split] gives one part more than there are separators. *)
Lemma Split_length (s : list byte) (sep : byte) :
  List.length (Split s sep) = S (countByte sep s).
Proof.
  unfold countByte. induction s as [|c s IH]; [reflexivity|].
  simpl. destruct (Byte.eqb c sep).
  - simpl. rewrite IH. reflexivity.
  - destruct (Split s sep) as [|part parts]; [discriminate IH|]. exact IH.
Qed.

End bytes_facts.

(** * Beyond the claims: the shape of the credential *)

Section Shape.
Variable env : Env.

(** X5. White space around the credential does not matter: ASCII white
    space before and after an ASCII credential (the line break that ends a
    license file, indentation) leaves the verifier's result unchanged. *)
Theorem validateLicense_ignores_surrounding_space
        (c : Config) (pre license post : list byte) :
  allSpace pre -> allASCII license -> allSpace post ->
  validateLicense env c (pre ++ license ++ post) = validateLicense env c license.
Proof.
  intros Hpre Hl Hpost. unfold validateLicense.
  rewrite (bytes_facts.TrimSpace_surrounded (trimUnicodeSpace env) pre license post)
    by assumption.
  reflexivity.
Qed.

(** X6. The delimiter.  With a key that parses, the verifier fails with
    the split error exactly when the trimmed credential does not hold
    exactly one dot: none, or two and more. *)
Theorem validateLicense_split_error_iff
        (c : Config) (license : list byte) (block : pem.Block) (key : rsa.PublicKey) :
  pem_Decode env (publicKeyPem env c) = Some block ->
  x509_ParsePKIXPublicKey env (pem.Bytes block) = inl (RSAPublicKey key) ->
  (validateLicense env c license
     = Ret (zeroLicense, Some (ErrorsNew "failed to split license contents by delimiter"))
   <-> countByte "."%byte (bytes.TrimSpace (trimUnicodeSpace env) license) <> 1%nat).
Proof.
  intros Hp Hk. unfold validateLicense. rewrite Hp, Hk.
  pose proof (bytes_facts.Split_length
                (bytes.TrimSpace (trimUnicodeSpace env) license) "."%byte) as HL.
  destruct (bytes.Split _ _) as [|dataEnc [|sigEnc [|x parts]]]; simpl in HL.
  - discriminate HL.
  - split; [intros _; lia|reflexivity].
  - split; [|intros Hc; exfalso; lia].
    destruct (base64.DecodeString _ (string_of_list_byte dataEnc)) as [data [e1|]];
      [discriminate|].
    destruct (base64.DecodeString _ (string_of_list_byte sigEnc)) as [sig [e2|]];
      [discriminate|].
    destruct (rsa_VerifyPKCS1v15 env key _ sig); [discriminate|].
    destruct (json_Unmarshal env data zeroLicense) as [l [e4|]]; discriminate.
  - split; [intros _; lia|reflexivity].
Qed.


(** X8. A license at the default path.  With neither an inline credential
    nor a file path configured, the only file read is the default one (the
    override of the configuration when it has one, else
    [/etc/redpanda/redpanda.license]); when it holds a credential that
    verifies, is no trial and has not expired, [RegisterService] publishes
    the decoded record and logs two debug entries and no error. *)
Theorem default_path_license_is_loaded (c : Config) (s : State) (b : list byte)
        (lic : RedpandaLicense) :
  License c = "" ->
  LicenseFilepath c = "" ->
  let path := if (customDefaultLicenseFilepath c =? "")%string
              then "/etc/redpanda/redpanda.license"
              else customDefaultLicenseFilepath c in
  os_ReadFile env path = (b, None) ->
  b <> [] ->
  validateLicense env c b = Ret (lic, None) ->
  Type_ lic <> 0 ->
  time.Unix (clock env (ticks s)) < Expiry lic ->
  RegisterService env c s
    = Ret (tt, {| logs := logs s
                          ++ [debugEntry "Loaded Redpanda Enterprise license from default file path";
                              successEntry env lic];
                  reads := reads s ++ [path];
                  ticks := S (ticks s);
                  shared := Some {| loadedLicense := Some lic; conf := c |} |}).
Proof.
  intros H0 H1 path Hr Hb HV HT HE.
  assert (defaultLicenseFilepath c = path) as Hpath.
  { unfold defaultLicenseFilepath, path, defaultLicenseFilepath_const.
    destruct (customDefaultLicenseFilepath c =? "")%string; reflexivity. }
  assert (readLicense env c s
          = Ret ((b, None),
                 {| logs := logs s
                            ++ [debugEntry "Loaded Redpanda Enterprise license from default file path"];
                    reads := reads s ++ [path]; ticks := ticks s; shared := shared s |}))
    as HL.
  { unfold readLicense. rewrite H0, H1. simpl. unfold_m. rewrite Hpath, Hr. reflexivity. }
  pose proof (readAndValidateLicense_verified env c s _ b lic HL Hb HV HT HE) as HR.
  rewrite (RegisterService_after_success _ _ _ _ _ HR).
  cbn [logs reads ticks]. rewrite <- app_assoc. reflexivity.
Qed.

End Shape.

(** * Beyond the claims: the errors of the load, the key override and the test service *)

Module decode_errors.
Import base64.

Lemma convertQuantum_error enc dbuf dlen si err out e :
  convertQuantum enc dbuf dlen si err = (out, Some e) ->
  (exists n, e = CorruptInputError n) \/ err = Some e.
Proof.
  unfold convertQuantum.
  repeat match goal with
         | |- context [if ?b then _ else _] => destruct b
         end; intros [= <- <-] || intros [= <- ->]; eauto.
Qed.

Lemma decodePadding_error enc dbuf j src si len out e :
  decodePadding enc dbuf j src si len = (out, Some e) -> exists n, e = CorruptInputError n.
Proof.
  unfold decodePadding.
  assert (forall src1 si1,
            (let '(src2, si2) := skipNewlines src1 si1 in
             let err := match src2 with
                        | [] => None
                        | _ :: _ => Some (CorruptInputError si2)
                        end in
             convertQuantum enc dbuf j si2 err) = (out, Some e) ->
            exists n, e = CorruptInputError n) as Hfinal.
  { intros src1 si1. destruct (skipNewlines src1 si1) as [src2 si2]. intros H.
    destruct (convertQuantum_error _ _ _ _ _ _ _ H) as [Hc|Hc]; [exact Hc|].
    destruct src2; [discriminate|]. injection Hc as <-. eauto. }
  destruct (j <? 2); [intros [= _ <-]; now eauto|].
  destruct (j =? 2); [|apply Hfinal].
  destruct (skipNewlines src si) as [src1 si1].
  destruct src1 as [|x src2]; [intros [= _ <-]; now eauto|].
  destruct (isPad enc x); [apply Hfinal|intros [= _ <-]; eauto].
Qed.

Lemma decodeLoop_error enc len src :
  forall si dbuf out e,
    decodeLoop enc len src si dbuf = (out, Some e) -> exists n, e = CorruptInputError n.
Proof.
  induction src as [|x src IH]; intros si dbuf out e.
  - simpl. destruct (Z.of_nat (List.length dbuf) =? 0); [discriminate|].
    destruct (_ || _); [intros [= _ <-]; now eauto|].
    intros H. destruct (convertQuantum_error _ _ _ _ _ _ _ H) as [Hc|Hc];
      [exact Hc|discriminate].
  - rewrite base64_facts.decodeLoop_cons. cbv zeta.
    destruct (negb (decodeMap enc x =? 255)).
    + destruct (_ <? 4); [apply IH|].
      destruct (convertQuantum enc (dbuf ++ [decodeMap enc x]) 4 (si + 1) None)
        as [q [e0|]] eqn:Hq.
      * intros [= _ <-].
        destruct (convertQuantum_error _ _ _ _ _ _ _ Hq) as [Hc|Hc];
          [exact Hc|discriminate].
      * destruct (decodeLoop enc len src (si + 1) []) as [rest err] eqn:Hrest.
        intros [= _ ->]. apply (IH _ _ _ _ Hrest).
    + destruct (isNewline x); [apply IH|].
      destruct (negb (isPad enc x)); [intros [= _ <-]; now eauto|].
      apply decodePadding_error.
Qed.

(** An error of the decoder is a [CorruptInputError]. *)
Lemma DecodeString_error enc s out e :
  DecodeString enc s = (out, Some e) -> exists n, e = CorruptInputError n.
Proof. unfold DecodeString, Decode. apply decodeLoop_error. Qed.

End decode_errors.

Section Errors.
Variable env : Env.

Lemma validateLicense_error_kinds (c : Config) (b : list byte) (lic : RedpandaLicense)
      (e : error) :
  validateLicense env c b = Ret (lic, Some e) ->
  KeyParseError e \/ MalformedCredential e \/
  (exists e0, e = SignatureInvalid e0) \/ (exists e0, e = DecodeError e0).
Proof.
  unfold validateLicense, KeyParseError, MalformedCredential.
  destruct (pem_Decode env (publicKeyPem env c)) as [block|]; [|discriminate].
  destruct (x509_ParsePKIXPublicKey env (pem.Bytes block)) as [[key|alg raw]|e0].
  2: intros [= _ <-]; now auto.
  2: intros [= _ <-]; now eauto.
  destruct (bytes.Split _ _) as [|dataEnc [|sigEnc [|x parts]]].
  1,2,4: intros [= _ <-]; now auto.
  destruct (base64.DecodeString _ (string_of_list_byte dataEnc)) as [data [e1|]] eqn:Hd.
  { intros [= _ <-]. destruct (decode_errors.DecodeString_error _ _ _ _ Hd) as [n ->].
    right. left. right. left. eauto. }
  destruct (base64.DecodeString _ (string_of_list_byte sigEnc)) as [sig [e2|]] eqn:Hs.
  { intros [= _ <-]. destruct (decode_errors.DecodeString_error _ _ _ _ Hs) as [n ->].
    right. left. right. right. eauto. }
  destruct (rsa_VerifyPKCS1v15 env key _ sig) as [e3|].
  { intros [= _ <-]. right. right. left. eauto. }
  destruct (json_Unmarshal env data zeroLicense) as [l [e4|]]; [|discriminate].
  intros [= _ <-]. right. right. right. eauto.
Qed.

(** X9. The failures of the load.  An error of the load comes with the
    zero record and is of one of five kinds, told apart by their text: the
    read error of the configured file; a read error of the default file
    other than not-found; a validation error (bad key, malformed credential
    with the offset of the first bad character, bad signature, payload that
    does not deserialize) wrapped as invalid license; the trial error; the
    expiry of the record. *)
Theorem load_error_kinds (c : Config) (s s1 : State) (lic : RedpandaLicense) (e : error) :
  readAndValidateLicense env c s = Ret ((lic, Some e), s1) ->
  lic = zeroLicense /\
  ((exists e0, e = SourceReadError e0 /\ License c = "" /\ LicenseFilepath c <> "") \/
   (exists e0, e = DefaultReadError e0 /\ os_IsNotExist e0 = false /\
               License c = "" /\ LicenseFilepath c = "") \/
   (exists e0, e = LicenseInvalid e0 /\
               (KeyParseError e0 \/ MalformedCredential e0 \/
                (exists e1, e0 = SignatureInvalid e1) \/ (exists e1, e0 = DecodeError e1))) \/
   e = trialError \/
   (exists expiry, e = Expired expiry)).
Proof.
  intros H. split; [apply (readAndValidateLicense_error_zero _ _ _ _ _ _ H)|].
  destruct (readLicense env c s) as [[[b [e0|]] s0]|] eqn:HL.
  - rewrite (readAndValidateLicense_unreadable env c s b e0 s0 HL) in H.
    injection H as _ <- _. revert HL. unfold readLicense.
    destruct (License c =? "")%string eqn:E0; simpl; [|unfold_m; discriminate].
    apply String.eqb_eq in E0.
    destruct (LicenseFilepath c =? "")%string eqn:E1; simpl; unfold_m.
    + apply String.eqb_eq in E1.
      destruct (os_ReadFile env (defaultLicenseFilepath c)) as [b0 [e1|]]; [|discriminate].
      destruct (os_IsNotExist e1) eqn:Hn; simpl; [discriminate|].
      intros [= _ <- _]. right. left. eauto.
    + apply String.eqb_neq in E1.
      destruct (os_ReadFile env (LicenseFilepath c)) as [b0 [e1|]]; [|discriminate].
      intros [= _ <- _]. left. eauto.
  - destruct b as [|x b].
    + rewrite (readAndValidateLicense_absent env c s s0 HL), checkAndReport_run in H.
      destruct (_ <=? _); [|discriminate]. injection H as _ <- _. do 4 right. eauto.
    + assert (x :: b <> []) as Hb by discriminate.
      rewrite (readAndValidateLicense_found env c s _ s0 HL Hb) in H.
      destruct (validateLicense env c (x :: b)) as [[l [e0|]]|] eqn:HV; [| |discriminate].
      * injection H as _ <- _. right. right. left. exists e0.
        split; [reflexivity|]. apply (validateLicense_error_kinds _ _ _ _ HV).
      * destruct (Type_ l =? 0); [injection H as _ <- _; now auto|].
        rewrite checkAndReport_run in H.
        destruct (_ <=? _); [|discriminate]. injection H as _ <- _. do 4 right. eauto.
  - destruct (readLicense_returns env c s) as (r & s0 & HL'). congruence.
Qed.

(** X10. The key override.  When the configuration carries a key of its
    own, the key embedded in the binary plays no part: construction gives
    the same result whatever the embedded key file holds. *)
Theorem custom_key_replaces_embedded_key (c : Config) (s : State) (key : list byte) :
  customPublicKeyPem c <> [] ->
  RegisterService (withEmbeddedKey env key) c s = RegisterService env c s.
Proof.
  intros Hk.
  assert (forall b, validateLicense (withEmbeddedKey env key) c b = validateLicense env c b)
    as HV.
  { intros b. unfold validateLicense, publicKeyPem. simpl.
    rewrite (nonempty_length _ Hk). reflexivity. }
  assert (readAndValidateLicense (withEmbeddedKey env key) c s
          = readAndValidateLicense env c s) as HR.
  { destruct (readLicense_returns env c s) as ([b [e|]] & s0 & HL).
    - rewrite (readAndValidateLicense_unreadable env c s b e s0 HL).
      apply (readAndValidateLicense_unreadable (withEmbeddedKey env key) c s b e s0 HL).
    - destruct b as [|x b].
      + rewrite (readAndValidateLicense_absent env c s s0 HL).
        apply (readAndValidateLicense_absent (withEmbeddedKey env key) c s s0 HL).
      + assert (x :: b <> []) as Hb by discriminate.
        rewrite (readAndValidateLicense_found env c s _ s0 HL Hb).
        rewrite (readAndValidateLicense_found (withEmbeddedKey env key) c s _ s0 HL Hb).
        rewrite HV. reflexivity. }
  unfold RegisterService. unfold bind at 1 3. rewrite HR. reflexivity.
Qed.

(** X11. The test service.  [InjectTestService] cannot fail: whatever the
    key, the files and the configuration, it publishes the enterprise
    record of organization [test] that expires exactly one hour (3600
    seconds) after the clock reading it takes; it reads no file and logs
    nothing, and it replaces what a construction had registered. *)
Theorem InjectTestService_publishes_one_hour_license (c : Config) (s : State) :
  (exists s2,
     InjectTestService env s = Ret (tt, s2) /\
     logs s2 = logs s /\ reads s2 = reads s /\
     exists svc,
       shared s2 = Some svc /\
       loadedLicense svc
         = Some {| Version := 1; Organization := "test"; Type_ := 1;
                   Expiry := time.Unix (clock env (ticks s)) + 3600 |}) /\
  (forall s1,
     RegisterService env c s = Ret (tt, s1) ->
     exists s2 svc,
       (RegisterService env c ;; InjectTestService env) s = Ret (tt, s2) /\
       shared s2 = Some svc /\
       loadedLicense svc
         = Some {| Version := 1; Organization := "test"; Type_ := 1;
                   Expiry := time.Unix (clock env (ticks s1)) + 3600 |}).
Proof.
  assert (forall now, time.Unix (time.Add now time.Hour) = time.Unix now + 3600) as Hhour.
  { intros now. unfold time.Unix, time.Add, time.Hour.
    apply Z.div_add. discriminate. }
  split.
  - eexists. split; [reflexivity|]. split; [reflexivity|]. split; [reflexivity|].
    eexists. split; [reflexivity|]. simpl. rewrite Hhour. reflexivity.
  - intros s1 H. unfold bind at 1. rewrite H.
    do 2 eexists. split; [reflexivity|]. split; [reflexivity|].
    simpl. rewrite Hhour. reflexivity.
Qed.

End Errors.

(** * Beyond the claims: what the two segments may hold *)

Module raw_encoding.
Import base64 base64_facts.

Lemma Encode_raw_group1 b0 :
  Encode RawStdEncoding [b0] =
  let val := Z.shiftl (byte_val b0) 16 in
  [encodeAt StdEncoding (Z.land (Z.shiftr val 18) 63);
   encodeAt StdEncoding (Z.land (Z.shiftr val 12) 63)].
Proof. reflexivity. Qed.

Lemma Encode_raw_group2 b0 b1 :
  Encode RawStdEncoding [b0; b1] =
  let val := Z.lor (Z.shiftl (byte_val b0) 16) (Z.shiftl (byte_val b1) 8) in
  [encodeAt StdEncoding (Z.land (Z.shiftr val 18) 63);
   encodeAt StdEncoding (Z.land (Z.shiftr val 12) 63);
   encodeAt StdEncoding (Z.land (Z.shiftr val 6) 63)].
Proof. reflexivity. Qed.

Lemma Encode_raw_group3 b0 b1 b2 rest :
  Encode RawStdEncoding (b0 :: b1 :: b2 :: rest) =
  let val := Z.lor (Z.lor (Z.shiftl (byte_val b0) 16) (Z.shiftl (byte_val b1) 8))
                   (byte_val b2) in
  encodeAt StdEncoding (Z.land (Z.shiftr val 18) 63)
  :: encodeAt StdEncoding (Z.land (Z.shiftr val 12) 63)
  :: encodeAt StdEncoding (Z.land (Z.shiftr val 6) 63)
  :: encodeAt StdEncoding (Z.land val 63)
  :: Encode RawStdEncoding rest.
Proof. reflexivity. Qed.

Lemma length_mod3_step {A} (a b c : A) (l : list A) :
  (List.length (a :: b :: c :: l) mod 3 = List.length l mod 3)%nat.
Proof.
  change (List.length (a :: b :: c :: l)) with (3 + List.length l)%nat.
  replace (3 + List.length l)%nat with (List.length l + 1 * 3)%nat by lia.
  apply Nat.Div0.mod_add.
Qed.

(** Without its padding, the encoding of a source whose length is no
    multiple of three is refused by the standard decoder. *)
Lemma decodeLoop_raw_refused (src : list byte) :
  (List.length src mod 3 <> 0)%nat ->
  forall len si, exists out e,
    decodeLoop StdEncoding len (Encode RawStdEncoding src) si [] = (out, Some e).
Proof.
  induction src as [|b0|b0 b1|b0 b1 b2 rest IH] using list_ind3; intros Hlen len si.
  - exfalso. apply Hlen. reflexivity.
  - rewrite Encode_raw_group1. cbv zeta.
    rewrite decodeLoop_sextet by (try apply sextet_range; simpl; lia). cbn [app].
    rewrite decodeLoop_sextet by (try apply sextet_range; simpl; lia). cbn [app].
    do 2 eexists. reflexivity.
  - rewrite Encode_raw_group2. cbv zeta.
    rewrite decodeLoop_sextet by (try apply sextet_range; simpl; lia). cbn [app].
    rewrite decodeLoop_sextet by (try apply sextet_range; simpl; lia). cbn [app].
    rewrite decodeLoop_sextet by (try apply sextet_range; simpl; lia). cbn [app].
    do 2 eexists. reflexivity.
  - rewrite length_mod3_step in Hlen.
    rewrite Encode_raw_group3. cbv zeta.
    rewrite decodeLoop_sextet by (try apply sextet_range; simpl; lia). cbn [app].
    rewrite decodeLoop_sextet by (try apply sextet_range; simpl; lia). cbn [app].
    rewrite decodeLoop_sextet by (try apply sextet_range; simpl; lia). cbn [app].
    rewrite decodeLoop_sextet_last by apply sextet_range.
    rewrite convertQuantum_group3.
    destruct (IH Hlen len (si + 1 + 1 + 1 + 1)) as (out & e & ->). eauto.
Qed.

(** When the length is a multiple of three there is no padding to leave
    out. *)
Lemma Encode_raw_multiple_of_three (src : list byte) :
  (List.length src mod 3 = 0)%nat ->
  Encode RawStdEncoding src = Encode StdEncoding src.
Proof.
  induction src as [|b0|b0 b1|b0 b1 b2 rest IH] using list_ind3; intros Hlen.
  - reflexivity.
  - discriminate Hlen.
  - discriminate Hlen.
  - rewrite length_mod3_step in Hlen.
    rewrite Encode_raw_group3, Encode_group3. cbv zeta. rewrite (IH Hlen). reflexivity.
Qed.

End raw_encoding.

Section Segments.
Variable env : Env.

Lemma stdReadable_false (x : byte) :
  stdReadable x = false ->
  base64.decodeMap base64.StdEncoding x = 255 /\
  base64.isNewline x = false /\ base64.isPad base64.StdEncoding x = false.
Proof.
  unfold stdReadable. intros H.
  apply orb_false_iff in H. destruct H as [H Hn].
  apply orb_false_iff in H. destruct H as [Hm Hp].
  apply negb_false_iff, Z.eqb_eq in Hm. auto.
Qed.

Lemma DecodeString_foreign_byte (seg : list byte) (x : byte) :
  In x seg -> stdReadable x = false ->
  exists out n,
    base64.DecodeString base64.StdEncoding (string_of_list_byte seg)
      = (out, Some (CorruptInputError n)).
Proof.
  intros Hin Hx. destruct (stdReadable_false x Hx) as (Hm & Hn & Hp).
  rewrite base64_facts.DecodeString_bytes. unfold base64.Decode.
  destruct (base64_facts.decodeLoop_rejects base64.StdEncoding
              (Z.of_nat (List.length seg)) x Hm Hn Hp seg 0 [] Hin) as (out & e & H).
  destruct (decode_errors.decodeLoop_error _ _ _ _ _ _ _ H) as [n ->]. eauto.
Qed.

(** X12. Foreign bytes.  With a key that parses and a credential of two
    parts, a byte in either segment that is neither a character of the
    standard alphabet, nor the padding, nor a line break (a blank, a tab, a
    character of the URL-safe alphabet, a byte outside ASCII) makes the
    verifier fail with a malformed-credential error before the signature is
    checked. *)
Theorem foreign_byte_is_malformed
        (c : Config) (license : list byte) (block : pem.Block) (key : rsa.PublicKey)
        (dataEnc sigEnc : list byte) (x : byte) :
  pem_Decode env (publicKeyPem env c) = Some block ->
  x509_ParsePKIXPublicKey env (pem.Bytes block) = inl (RSAPublicKey key) ->
  bytes.Split (bytes.TrimSpace (trimUnicodeSpace env) license) "."%byte = [dataEnc; sigEnc] ->
  In x (dataEnc ++ sigEnc) ->
  stdReadable x = false ->
  exists n,
    validateLicense env c license
      = Ret (zeroLicense, Some (MalformedData (CorruptInputError n))) \/
    validateLicense env c license
      = Ret (zeroLicense,
             Some (Errorf "failed to decode license signature: %w" (CorruptInputError n))).
Proof.
  intros Hp Hk Hsp Hin Hx. unfold validateLicense. rewrite Hp, Hk, Hsp.
  apply in_app_or in Hin. destruct Hin as [Hin|Hin].
  - destruct (DecodeString_foreign_byte dataEnc x Hin Hx) as (out & n & ->).
    exists n. left. reflexivity.
  - destruct (base64.DecodeString _ (string_of_list_byte dataEnc)) as [data [e1|]] eqn:Hd.
    + destruct (decode_errors.DecodeString_error _ _ _ _ Hd) as [n ->].
      exists n. left. reflexivity.
    + destruct (DecodeString_foreign_byte sigEnc x Hin Hx) as (out & n & ->).
      exists n. right. reflexivity.
Qed.

(** X13. Padding is required.  With a key that parses and a credential of
    two parts whose payload segment is the standard encoding of some bytes
    with the padding left out: when the number of bytes is no multiple of
    three the verifier fails with the payload's malformed-credential error;
    when it is a multiple of three nothing was left out and the segment
    decodes to those bytes. *)
Theorem unpadded_payload_is_malformed
        (c : Config) (license : list byte) (block : pem.Block) (key : rsa.PublicKey)
        (payload sigEnc : list byte) :
  pem_Decode env (publicKeyPem env c) = Some block ->
  x509_ParsePKIXPublicKey env (pem.Bytes block) = inl (RSAPublicKey key) ->
  bytes.Split (bytes.TrimSpace (trimUnicodeSpace env) license) "."%byte
    = [base64.Encode RawStdEncoding payload; sigEnc] ->
  ((List.length payload mod 3 <> 0)%nat ->
   exists n, validateLicense env c license
             = Ret (zeroLicense, Some (MalformedData (CorruptInputError n))))
  /\
  ((List.length payload mod 3 = 0)%nat ->
   base64.DecodeString base64.StdEncoding
     (string_of_list_byte (base64.Encode RawStdEncoding payload)) = (payload, None)).
Proof.
  intros Hp Hk Hsp. split.
  - intros Hlen. unfold validateLicense. rewrite Hp, Hk, Hsp.
    rewrite base64_facts.DecodeString_bytes. unfold base64.Decode.
    destruct (raw_encoding.decodeLoop_raw_refused payload Hlen
                (Z.of_nat (List.length (base64.Encode RawStdEncoding payload))) 0)
      as (out & e & H).
    rewrite H.
    destruct (decode_errors.decodeLoop_error _ _ _ _ _ _ _ H) as [n ->]. eauto.
  - intros Hlen. rewrite (raw_encoding.Encode_raw_multiple_of_three payload Hlen).
    apply base64_facts.DecodeString_EncodeToString_std.
Qed.

End Segments.

(** ** Line breaks in a segment *)

Module line_breaks.
Import base64 base64_facts.

Lemma sameDecoding_refl r : sameDecoding r r.
Proof. intros out. reflexivity. Qed.

Lemma sameDecoding_errors o1 e1 o2 e2 : sameDecoding (o1, Some e1) (o2, Some e2).
Proof. intros out. split; discriminate. Qed.

Lemma sameDecoding_trans r1 r2 r3 :
  sameDecoding r1 r2 -> sameDecoding r2 r3 -> sameDecoding r1 r3.
Proof. intros H12 H23 out. rewrite (H12 out). apply H23. Qed.

Lemma sameDecoding_sym r1 r2 : sameDecoding r1 r2 -> sameDecoding r2 r1.
Proof. intros H out. symmetry. apply H. Qed.

Lemma sameDecoding_prepend q r1 r2 :
  sameDecoding r1 r2 ->
  sameDecoding (let '(rest, err) := r1 in (q ++ rest, err))
               (let '(rest, err) := r2 in (q ++ rest, err)).
Proof.
  destruct r1 as [o1 e1], r2 as [o2 e2]. intros H out. split.
  - intros E. injection E as E1 E2. subst e1 out.
    pose proof (proj1 (H o1) eq_refl) as E'. injection E' as -> ->. reflexivity.
  - intros E. injection E as E1 E2. subst e2 out.
    pose proof (proj2 (H o2) eq_refl) as E'. injection E' as -> ->. reflexivity.
Qed.

Lemma stripNewlines_cons x s :
  stripNewlines (x :: s) = if isNewline x then stripNewlines s else x :: stripNewlines s.
Proof. unfold stripNewlines. simpl. destruct (isNewline x); reflexivity. Qed.

Lemma skipNewlines_stripped s si :
  skipNewlines (stripNewlines s) si = (stripNewlines s, si).
Proof.
  induction s as [|x s IH]; [reflexivity|].
  rewrite stripNewlines_cons. destruct (isNewline x) eqn:Hx; [exact IH|].
  simpl. rewrite Hx. reflexivity.
Qed.

Lemma skipNewlines_cases s :
  forall si,
    (fst (skipNewlines s si) = [] /\ stripNewlines s = []) \/
    (exists c t, fst (skipNewlines s si) = c :: t /\ isNewline c = false /\
                 stripNewlines s = c :: stripNewlines t).
Proof.
  induction s as [|x s IH]; intros si; [left; split; reflexivity|].
  rewrite stripNewlines_cons. simpl. destruct (isNewline x) eqn:Hx.
  - apply IH.
  - right. exists x, s. simpl. auto.
Qed.

Section Decoder.
Variable enc : Encoding.
Hypothesis newline_not_in_alphabet : forall x, isNewline x = true -> decodeMap enc x = 255.

Lemma convertQuantum_same dbuf dlen si si' err err' :
  (err = None <-> err' = None) ->
  sameDecoding (convertQuantum enc dbuf dlen si err) (convertQuantum enc dbuf dlen si' err').
Proof.
  intros H. unfold convertQuantum.
  assert (forall l, sameDecoding (l, err) (l, err')) as Hl.
  { intros l out. split; intros [= <- E]; apply H in E; rewrite E; reflexivity. }
  repeat match goal with
         | |- context [if ?b then _ else _] => destruct b
         end; solve [apply Hl | apply sameDecoding_errors].
Qed.

Lemma convertQuantum_full dbuf si si' :
  convertQuantum enc dbuf 4 si None = convertQuantum enc dbuf 4 si' None.
Proof. reflexivity. Qed.

(** The end of the padding branch, after the padding characters. *)
Lemma afterPadding_same dbuf j s si si' :
  sameDecoding
    (let '(src2, si2) := skipNewlines s si in
     let err := match src2 with
                | [] => None
                | _ :: _ => Some (CorruptInputError si2)
                end in
     convertQuantum enc dbuf j si2 err)
    (let '(src2, si2) := skipNewlines (stripNewlines s) si' in
     let err := match src2 with
                | [] => None
                | _ :: _ => Some (CorruptInputError si2)
                end in
     convertQuantum enc dbuf j si2 err).
Proof.
  rewrite skipNewlines_stripped.
  destruct (skipNewlines_cases s si) as [[H1 H2]|(c & t & H1 & _ & H2)];
    destruct (skipNewlines s si) as [src2 si2]; simpl in H1; subst src2; rewrite H2.
  - apply convertQuantum_same. reflexivity.
  - apply convertQuantum_same. split; discriminate.
Qed.

Lemma decodePadding_same dbuf j s si si' len len' :
  sameDecoding (decodePadding enc dbuf j s si len)
               (decodePadding enc dbuf j (stripNewlines s) si' len').
Proof.
  unfold decodePadding.
  destruct (j <? 2); [apply sameDecoding_errors|].
  destruct (j =? 2); [|apply afterPadding_same].
  rewrite skipNewlines_stripped.
  destruct (skipNewlines_cases s si) as [[H1 H2]|(c & t & H1 & Hc & H2)];
    destruct (skipNewlines s si) as [src1 si1]; simpl in H1; subst src1; rewrite H2.
  - apply sameDecoding_errors.
  - destruct (isPad enc c); [apply afterPadding_same|apply sameDecoding_errors].
Qed.

Lemma decodeLoop_same len len' s :
  forall si si' dbuf,
    sameDecoding (decodeLoop enc len s si dbuf)
                 (decodeLoop enc len' (stripNewlines s) si' dbuf).
Proof.
  induction s as [|x s IH]; intros si si' dbuf.
  - simpl. destruct (Z.of_nat (List.length dbuf) =? 0); [apply sameDecoding_refl|].
    destruct (_ || _); [apply sameDecoding_errors|].
    apply convertQuantum_same. reflexivity.
  - rewrite stripNewlines_cons. destruct (isNewline x) eqn:Hx.
    + rewrite decodeLoop_cons. cbv zeta.
      rewrite (newline_not_in_alphabet x Hx). change (negb (255 =? 255)) with false.
      cbv iota. rewrite Hx. apply IH.
    + rewrite !decodeLoop_cons. cbv zeta.
      destruct (negb (decodeMap enc x =? 255)).
      * destruct (_ <? 4); [apply IH|].
        rewrite (convertQuantum_full _ (si + 1) (si' + 1)).
        destruct (convertQuantum enc (dbuf ++ [decodeMap enc x]) 4 (si' + 1) None)
          as [q [e|]]; [apply sameDecoding_errors|].
        apply sameDecoding_prepend, IH.
      * rewrite Hx. destruct (negb (isPad enc x)); [apply sameDecoding_errors|].
        apply decodePadding_same.
Qed.

(** The decoder succeeds on a text exactly when it succeeds on the text
    without its line breaks, with the same bytes. *)
Lemma Decode_ignores_line_breaks s :
  sameDecoding (Decode enc s) (Decode enc (stripNewlines s)).
Proof. unfold Decode. apply decodeLoop_same. Qed.

End Decoder.

Lemma std_newline_not_in_alphabet x :
  isNewline x = true -> decodeMap StdEncoding x = 255.
Proof. destruct x; intros H; try discriminate H; reflexivity. Qed.

Lemma DecodeString_std_line_breaks (s s' : list byte) :
  stripNewlines s = stripNewlines s' ->
  sameDecoding (DecodeString StdEncoding (string_of_list_byte s))
               (DecodeString StdEncoding (string_of_list_byte s')).
Proof.
  intros H. rewrite !DecodeString_bytes.
  apply sameDecoding_trans with (r2 := Decode StdEncoding (stripNewlines s)).
  - apply Decode_ignores_line_breaks, std_newline_not_in_alphabet.
  - rewrite H. apply sameDecoding_sym.
    apply Decode_ignores_line_breaks, std_newline_not_in_alphabet.
Qed.

End line_breaks.

Section LineBreaks.
Variable env : Env.

(** X14. Line breaks in the signature.  With a key that parses, two
    credentials with the same payload segment whose signature segments
    differ only by carriage returns and line feeds get the same result from
    the verifier, record or error; only when the signature segment is
    malformed may the offsets the two errors report differ. *)
Theorem signature_line_breaks_are_ignored
        (c : Config) (license license' : list byte) (block : pem.Block)
        (key : rsa.PublicKey) (dataEnc sigEnc sigEnc' : list byte) :
  pem_Decode env (publicKeyPem env c) = Some block ->
  x509_ParsePKIXPublicKey env (pem.Bytes block) = inl (RSAPublicKey key) ->
  bytes.Split (bytes.TrimSpace (trimUnicodeSpace env) license) "."%byte
    = [dataEnc; sigEnc] ->
  bytes.Split (bytes.TrimSpace (trimUnicodeSpace env) license') "."%byte
    = [dataEnc; sigEnc'] ->
  stripNewlines sigEnc = stripNewlines sigEnc' ->
  validateLicense env c license = validateLicense env c license' \/
  exists n n',
    validateLicense env c license = Ret (zeroLicense, Some (SignatureMalformed n)) /\
    validateLicense env c license' = Ret (zeroLicense, Some (SignatureMalformed n')).
Proof.
  intros Hp Hk Hsp Hsp' Hstrip. unfold validateLicense. rewrite Hp, Hk, Hsp, Hsp'.
  destruct (base64.DecodeString _ (string_of_list_byte dataEnc)) as [data [e1|]];
    [left; reflexivity|].
  pose proof (line_breaks.DecodeString_std_line_breaks sigEnc sigEnc' Hstrip) as Hsame.
  destruct (base64.DecodeString _ (string_of_list_byte sigEnc)) as [sig [e2|]] eqn:Hs;
    destruct (base64.DecodeString _ (string_of_list_byte sigEnc')) as [sig' [e2'|]] eqn:Hs'.
  - right.
    destruct (decode_errors.DecodeString_error _ _ _ _ Hs) as [n ->].
    destruct (decode_errors.DecodeString_error _ _ _ _ Hs') as [n' ->].
    exists n, n'. split; reflexivity.
  - pose proof (proj2 (Hsame sig') eq_refl) as E. discriminate E.
  - pose proof (proj1 (Hsame sig) eq_refl) as E. discriminate E.
  - pose proof (proj1 (Hsame sig) eq_refl) as E. injection E as <-. left. reflexivity.
Qed.

End LineBreaks.

(** * Beyond the claims: the credential an issuer writes *)

Module wire_format.
Import bytes base64 base64_facts.

Lemma isWireChar_plain (c : byte) :
  isWireChar c = true ->
  c <> "."%byte /\ asciiSpace c = false /\ isASCII c = true.
Proof.
  destruct c; intros H; try discriminate H; repeat split; discriminate.
Qed.

Lemma encodeAt_isWireChar (s : Z) : isWireChar (encodeAt StdEncoding (Z.land s 63)) = true.
Proof.
  unfold isWireChar. pose proof (sextet_range s) as Hs.
  rewrite (decodeMap_encodeAt_std _ Hs).
  replace (Z.land s 63 =? 255) with false by (symmetry; apply Z.eqb_neq; lia).
  reflexivity.
Qed.

(** The encoder writes characters of the alphabet and padding only. *)
Lemma Encode_isWireChar (src : list byte) :
  Forall (fun c => isWireChar c = true) (Encode StdEncoding src).
Proof.
  induction src as [|b0|b0 b1|b0 b1 b2 rest IH] using list_ind3.
  - constructor.
  - rewrite Encode_group1. cbv zeta.
    repeat (constructor; [first [apply encodeAt_isWireChar | reflexivity]|]). constructor.
  - rewrite Encode_group2. cbv zeta.
    repeat (constructor; [first [apply encodeAt_isWireChar | reflexivity]|]). constructor.
  - rewrite Encode_group3. cbv zeta.
    repeat (constructor; [apply encodeAt_isWireChar|]). exact IH.
Qed.

Lemma Split_no_separator (s : list byte) (sep : byte) :
  ~ In sep s -> Split s sep = [s].
Proof.
  induction s as [|c s IH]; intros H; [reflexivity|].
  simpl. destruct (Byte.eqb c sep) eqn:E.
  - exfalso. apply H. left. apply Byte.byte_dec_bl. exact E.
  - rewrite IH by (intros Hin; apply H; right; exact Hin). reflexivity.
Qed.

(** Two texts without separator, joined by one, are split back. *)
Lemma Split_joined (a b : list byte) (sep : byte) :
  ~ In sep a -> ~ In sep b -> Split (a ++ sep :: b) sep = [a; b].
Proof.
  intros Ha Hb. induction a as [|c a IH].
  - simpl. replace (Byte.eqb sep sep) with true
      by (symmetry; apply Byte.byte_dec_lb; reflexivity).
    rewrite (Split_no_separator b sep Hb). reflexivity.
  - simpl. destruct (Byte.eqb c sep) eqn:E.
    + exfalso. apply Ha. left. apply Byte.byte_dec_bl. exact E.
    + rewrite IH by (intros Hin; apply Ha; right; exact Hin). reflexivity.
Qed.

(** A text of ASCII bytes without white space is left as it is. *)
Lemma TrimSpace_plain (f : list byte -> list byte) (s : list byte) :
  Forall (fun c => asciiSpace c = false /\ isASCII c = true) s -> TrimSpace f s = s.
Proof.
  intros H. destruct s as [|c s]; [reflexivity|].
  assert (forall x, In x (c :: s) ->
                    (RuneSelf <=? byte_val x) = false /\ asciiSpace x = false) as Hall.
  { intros x Hin. rewrite Forall_forall in H. destruct (H x Hin) as [Hs Ha].
    unfold isASCII in Ha. apply Z.ltb_lt in Ha. split; [apply Z.leb_gt; exact Ha|exact Hs]. }
  cbn [TrimSpace]. destruct (Hall c (or_introl eq_refl)) as [-> ->].
  destruct (rev (c :: s)) as [|x rs] eqn:E.
  - apply (f_equal (@List.length byte)) in E. rewrite length_rev in E. discriminate E.
  - assert (In x (c :: s)) as Hx by (apply in_rev; rewrite E; left; reflexivity).
    cbn [trimSpaceBack]. destruct (Hall x Hx) as [-> ->].
    rewrite <- E. apply rev_involutive.
Qed.

Lemma credentialOf_plain (payload signature : list byte) :
  Forall (fun c => asciiSpace c = false /\ isASCII c = true)
         (credentialOf payload signature).
Proof.
  unfold credentialOf. apply Forall_app. split; [|constructor; [split; reflexivity|]].
  all: eapply Forall_impl; [|apply Encode_isWireChar];
    intros c Hc; apply isWireChar_plain in Hc; destruct Hc as (_ & Hs & Ha);
    split; assumption.
Qed.

Lemma Encode_no_dot (src : list byte) : ~ In "."%byte (Encode StdEncoding src).
Proof.
  intros Hin. pose proof (Encode_isWireChar src) as H. rewrite Forall_forall in H.
  destruct (isWireChar_plain _ (H _ Hin)) as [Hd _]. apply Hd. reflexivity.
Qed.

(** The verifier takes the issuer's credential apart into its two
    encodings, white space around it or not. *)
Lemma credentialOf_is_parsed (f : list byte -> list byte)
      (pre post payload signature : list byte) :
  allSpace pre -> allSpace post ->
  Split (TrimSpace f (pre ++ credentialOf payload signature ++ post)) "."%byte
    = [Encode StdEncoding payload; Encode StdEncoding signature].
Proof.
  intros Hpre Hpost.
  rewrite bytes_facts.TrimSpace_surrounded; try assumption.
  - rewrite TrimSpace_plain by apply credentialOf_plain.
    apply Split_joined; apply Encode_no_dot.
  - eapply Forall_impl; [|apply credentialOf_plain]. intros c [_ Hc]. exact Hc.
Qed.

End wire_format.

Section Issuer.
Variable env : Env.

(** X15. Issuer and verifier agree on the format.  With a key that parses,
    the credential written for a payload and a signature (the standard
    encoding of the payload, a dot, the standard encoding of the signature),
    with or without ASCII white space around it, is taken apart exactly: the
    signature is checked against the digest of the encoded payload, and the
    result is the SignatureInvalid error when the check fails, the
    DecodeError when the payload does not deserialize, and otherwise the
    record deserialized from the very payload bytes. *)
Theorem issued_credential_is_verified
        (c : Config) (block : pem.Block) (key : rsa.PublicKey)
        (pre post payload signature : list byte) :
  pem_Decode env (publicKeyPem env c) = Some block ->
  x509_ParsePKIXPublicKey env (pem.Bytes block) = inl (RSAPublicKey key) ->
  allSpace pre -> allSpace post ->
  validateLicense env c (pre ++ credentialOf payload signature ++ post) =
  match rsa_VerifyPKCS1v15 env key
          (sha256_Sum256 env (base64.Encode base64.StdEncoding payload)) signature with
  | Some e => Ret (zeroLicense, Some (SignatureInvalid e))
  | None =>
      match json_Unmarshal env payload zeroLicense with
      | (_, Some e) => Ret (zeroLicense, Some (DecodeError e))
      | (license, None) => Ret (license, None)
      end
  end.
Proof.
  intros Hp Hk Hpre Hpost. unfold validateLicense. rewrite Hp, Hk.
  rewrite (wire_format.credentialOf_is_parsed _ pre post payload signature Hpre Hpost).
  rewrite !base64_facts.DecodeString_bytes, !base64_facts.Decode_Encode_std.
  reflexivity.
Qed.

End Issuer.

(** * Beyond the claims: the files a construction reads *)

Section Files.
Variable env : Env.

Lemma readLicense_reads (c : Config) (s s1 : State) r :
  readLicense env c s = Ret (r, s1) -> reads s1 = reads s ++ filesConsulted c.
Proof.
  unfold readLicense, filesConsulted.
  destruct (License c =? "")%string; simpl.
  2:{ unfold_m. intros [= _ <-]. symmetry. apply app_nil_r. }
  destruct (LicenseFilepath c =? "")%string; simpl; unfold_m.
  - destruct (os_ReadFile env (defaultLicenseFilepath c)) as [b [e|]].
    + destruct (negb (os_IsNotExist e)); intros [= _ <-]; reflexivity.
    + intros [= _ <-]. reflexivity.
  - destruct (os_ReadFile env (LicenseFilepath c)) as [b [e|]];
      intros [= _ <-]; reflexivity.
Qed.

(** X16. One file at most.  A construction that returns has read no file
    when an inline credential is configured, the configured file alone when
    there is one, and otherwise the default file alone (the override of the
    configuration, or [/etc/redpanda/redpanda.license]), whether the load
    succeeded or failed. *)
Theorem RegisterService_reads_one_file (c : Config) (s s2 : State) :
  RegisterService env c s = Ret (tt, s2) ->
  reads s2 = reads s ++ (if (License c =? "")%string then
                           if (LicenseFilepath c =? "")%string then
                             [if (customDefaultLicenseFilepath c =? "")%string
                              then "/etc/redpanda/redpanda.license"
                              else customDefaultLicenseFilepath c]
                           else [LicenseFilepath c]
                         else []).
Proof.
  intros H.
  assert (reads s2 = reads s ++ filesConsulted c) as Hreads.
  { destruct (readAndValidateLicense env c s) as [[[lic err] s1]|] eqn:HR.
    - destruct (readAndValidateLicense_reads env c s _ _ HR) as (r1 & s0 & HL & E).
      assert (reads s2 = reads s1) as E2.
      { destruct err as [e|].
        - rewrite (RegisterService_after_error _ _ _ _ _ _ HR) in H. injection H as <-.
          reflexivity.
        - rewrite (RegisterService_after_success _ _ _ _ _ HR) in H. injection H as <-.
          reflexivity. }
      rewrite E2, E. apply (readLicense_reads _ _ _ _ HL).
    - unfold RegisterService in H. unfold bind at 1 in H. rewrite HR in H. discriminate. }
  rewrite Hreads. unfold filesConsulted, defaultLicenseFilepath, defaultLicenseFilepath_const.
  destruct (customDefaultLicenseFilepath c =? "")%string; reflexivity.
Qed.

End Files.

(** ** The properties beyond the claims at work on examples *)

Lemma verified_license_is_published_witness :
  let c := Demo.inline (Demo.sign Demo.enterprisePayload) in
  readAndValidateLicense (Demo.env []) c initialState
    = Ret ((Cases.enterprise, None),
           {| logs := logs Demo.afterInline ++ [successEntry (Demo.env []) Cases.enterprise];
              reads := reads Demo.afterInline; ticks := S (ticks Demo.afterInline);
              shared := shared Demo.afterInline |}) /\
  RegisterService (Demo.env []) c initialState
    = Ret (tt, {| logs := logs Demo.afterInline
                          ++ [successEntry (Demo.env []) Cases.enterprise];
                  reads := reads Demo.afterInline; ticks := S (ticks Demo.afterInline);
                  shared := Some {| loadedLicense := Some Cases.enterprise; conf := c |} |}).
Proof.
  intros c.
  apply (verified_license_is_published (Demo.env []) c initialState Demo.afterInline
           (Demo.sign Demo.enterprisePayload) Cases.enterprise).
  - vm_compute. reflexivity.
  - vm_compute. discriminate.
  - vm_compute. reflexivity.
  - discriminate.
  - vm_compute. reflexivity.
Defined.

Lemma accepted_license_was_verified_witness :
  let c := Demo.inline (Demo.sign Demo.enterprisePayload) in
  Type_ Cases.enterprise <> 0 /\
  exists b s1,
    readLicense (Demo.env []) c initialState = Ret ((b, None), s1) /\
    ((b <> [] /\ validateLicense (Demo.env []) c b = Ret (Cases.enterprise, None) /\
      signatureCheck (Demo.env []) c b None)
     \/
     (b = [] /\ Cases.enterprise
                = {| Version := 0; Organization := ""; Type_ := -1;
                     Expiry := time.Unix (clock (Demo.env []) (ticks s1)) + 315360000 |})).
Proof.
  intros c.
  apply (accepted_license_was_verified (Demo.env []) c initialState
           {| logs := logs Demo.afterInline ++ [successEntry (Demo.env []) Cases.enterprise];
              reads := []; ticks := 1; shared := None |}).
  vm_compute. reflexivity.
Defined.

Lemma RegisterService_logs_one_error_witness :
  let c := Demo.inline (Demo.forge Demo.enterprisePayload) in
  let e := LicenseInvalid (SignatureInvalid Demo.verificationError) in
  let s2 := {| logs := logs Demo.afterInline ++ [errorEntry e]; reads := []; ticks := 0;
               shared := Some {| loadedLicense := Some zeroLicense; conf := c |} |} in
  RegisterService (Demo.env []) c initialState = Ret (tt, s2) /\
  exists lic err s1 dbg,
    readAndValidateLicense (Demo.env []) c initialState = Ret ((lic, err), s1) /\
    Forall isDebugEntry dbg /\
    logs s2 = logs initialState ++ dbg ++ match err with
                                          | Some e => [errorEntry e]
                                          | None => []
                                          end /\
    (forall entry, In entry (dbg ++ match err with
                                      | Some e => [errorEntry e]
                                      | None => []
                                      end) ->
                   level entry = LevelError -> err <> None /\ exists e, entry = errorEntry e).
Proof.
  intros c e s2.
  assert (RegisterService (Demo.env []) c initialState = Ret (tt, s2)) as H
      by (vm_compute; reflexivity).
  split; [exact H|].
  exact (RegisterService_logs_one_error (Demo.env []) c initialState s2 H).
Defined.

Lemma validateLicense_ignores_surrounding_space_witness :
  validateLicense (Demo.env []) (Demo.config "" "")
    (Cases.space ++ Demo.sign Demo.enterprisePayload ++ [x0a])
  = validateLicense (Demo.env []) (Demo.config "" "") (Demo.sign Demo.enterprisePayload).
Proof.
  apply (validateLicense_ignores_surrounding_space (Demo.env []) (Demo.config "" "")).
  - repeat constructor.
  - unfold allASCII. apply Forall_forall. apply (proj1 (forallb_forall _ _)).
    vm_compute. reflexivity.
  - repeat constructor.
Defined.

Lemma validateLicense_split_error_iff_witness :
  (validateLicense (Demo.env []) (Demo.config "" "") (bytes_of "a.b.c")
     = Ret (zeroLicense, Some (ErrorsNew "failed to split license contents by delimiter"))
   <-> countByte "."%byte
         (bytes.TrimSpace (trimUnicodeSpace (Demo.env [])) (bytes_of "a.b.c")) <> 1%nat)
  /\ countByte "."%byte
       (bytes.TrimSpace (trimUnicodeSpace (Demo.env [])) (bytes_of "a.b.c")) = 2%nat.
Proof.
  split; [|reflexivity].
  apply (validateLicense_split_error_iff (Demo.env []) (Demo.config "" "")
           (bytes_of "a.b.c") Demo.rsaBlock Demo.rsaKey); reflexivity.
Defined.


Lemma default_path_license_is_loaded_witness :
  RegisterService (Demo.env Cases.files) (Demo.config "" "") initialState
  = Ret (tt, {| logs := logs initialState
                        ++ [debugEntry "Loaded Redpanda Enterprise license from default file path";
                            successEntry (Demo.env Cases.files) Cases.enterprise];
                reads := reads initialState ++ ["/etc/redpanda/redpanda.license"];
                ticks := S (ticks initialState);
                shared := Some {| loadedLicense := Some Cases.enterprise;
                                  conf := Demo.config "" "" |} |}).
Proof.
  apply (default_path_license_is_loaded (Demo.env Cases.files) (Demo.config "" "")
           initialState (Demo.sign Demo.enterprisePayload) Cases.enterprise).
  - reflexivity.
  - reflexivity.
  - reflexivity.
  - vm_compute. discriminate.
  - vm_compute. reflexivity.
  - discriminate.
  - vm_compute. reflexivity.
Defined.

Lemma load_error_kinds_witness :
  let c := Demo.inline (Demo.forge Demo.enterprisePayload) in
  let e := LicenseInvalid (SignatureInvalid Demo.verificationError) in
  readAndValidateLicense (Demo.env []) c initialState
    = Ret ((zeroLicense, Some e), Demo.afterInline) /\
  (zeroLicense = zeroLicense /\
   ((exists e0, e = SourceReadError e0 /\ License c = "" /\ LicenseFilepath c <> "") \/
    (exists e0, e = DefaultReadError e0 /\ os_IsNotExist e0 = false /\
                License c = "" /\ LicenseFilepath c = "") \/
    (exists e0, e = LicenseInvalid e0 /\
                (KeyParseError e0 \/ MalformedCredential e0 \/
                 (exists e1, e0 = SignatureInvalid e1) \/ (exists e1, e0 = DecodeError e1))) \/
    e = trialError \/
    (exists expiry, e = Expired expiry))).
Proof.
  intros c e.
  assert (readAndValidateLicense (Demo.env []) c initialState
          = Ret ((zeroLicense, Some e), Demo.afterInline)) as H
      by (vm_compute; reflexivity).
  split; [exact H|].
  exact (load_error_kinds (Demo.env []) c initialState Demo.afterInline zeroLicense e H).
Defined.

Lemma custom_key_replaces_embedded_key_witness :
  RegisterService (withEmbeddedKey (Demo.env []) (bytes_of "not a pem"))
    (Cases.withOwnKey (Demo.sign Demo.enterprisePayload)) initialState
  = RegisterService (Demo.env [])
      (Cases.withOwnKey (Demo.sign Demo.enterprisePayload)) initialState.
Proof.
  apply (custom_key_replaces_embedded_key (Demo.env [])
           (Cases.withOwnKey (Demo.sign Demo.enterprisePayload)) initialState
           (bytes_of "not a pem")).
  vm_compute. discriminate.
Defined.

Lemma foreign_byte_is_malformed_witness :
  exists n,
    validateLicense (Demo.env []) (Demo.config "" "") (bytes_of "eyJ9 fQ==.Zm9yZ2Vk")
      = Ret (zeroLicense, Some (MalformedData (CorruptInputError n))) \/
    validateLicense (Demo.env []) (Demo.config "" "") (bytes_of "eyJ9 fQ==.Zm9yZ2Vk")
      = Ret (zeroLicense,
             Some (Errorf "failed to decode license signature: %w" (CorruptInputError n))).
Proof.
  apply (foreign_byte_is_malformed (Demo.env []) (Demo.config "" "")
           (bytes_of "eyJ9 fQ==.Zm9yZ2Vk") Demo.rsaBlock Demo.rsaKey
           (bytes_of "eyJ9 fQ==") (bytes_of "Zm9yZ2Vk") " "%byte).
  - reflexivity.
  - reflexivity.
  - vm_compute. reflexivity.
  - vm_compute. tauto.
  - vm_compute. reflexivity.
Defined.

Lemma unpadded_payload_is_malformed_witness :
  (base64.Encode RawStdEncoding (bytes_of "{}") = bytes_of "e30" /\
   exists n, validateLicense (Demo.env []) (Demo.config "" "") (bytes_of "e30.Zm9yZ2Vk")
             = Ret (zeroLicense, Some (MalformedData (CorruptInputError n))))
  /\
  base64.DecodeString base64.StdEncoding
    (string_of_list_byte (base64.Encode RawStdEncoding (bytes_of "{ }"))) = (bytes_of "{ }", None).
Proof.
  split; [split; [reflexivity|]|].
  - refine (proj1 (unpadded_payload_is_malformed (Demo.env []) (Demo.config "" "")
                     (bytes_of "e30.Zm9yZ2Vk") Demo.rsaBlock Demo.rsaKey
                     (bytes_of "{}") (bytes_of "Zm9yZ2Vk") eq_refl eq_refl _) _).
    + vm_compute. reflexivity.
    + vm_compute. discriminate.
  - refine (proj2 (unpadded_payload_is_malformed (Demo.env []) (Demo.config "" "")
                     (bytes_of "eyB9.Zm9yZ2Vk") Demo.rsaBlock Demo.rsaKey
                     (bytes_of "{ }") (bytes_of "Zm9yZ2Vk") eq_refl eq_refl _) _).
    + vm_compute. reflexivity.
    + reflexivity.
Defined.

Lemma signature_line_breaks_are_ignored_witness :
  let env := Demo.env [] in
  let c := Demo.config "" "" in
  validateLicense env c (Demo.sign Demo.enterprisePayload)
    = validateLicense env c (Cases.wrapped Demo.enterprisePayload) \/
  exists n n',
    validateLicense env c (Demo.sign Demo.enterprisePayload)
      = Ret (zeroLicense, Some (SignatureMalformed n)) /\
    validateLicense env c (Cases.wrapped Demo.enterprisePayload)
      = Ret (zeroLicense, Some (SignatureMalformed n')).
Proof.
  intros env c.
  apply (signature_line_breaks_are_ignored env c
           (Demo.sign Demo.enterprisePayload) (Cases.wrapped Demo.enterprisePayload)
           Demo.rsaBlock Demo.rsaKey
           (base64.Encode base64.StdEncoding Demo.enterprisePayload)
           (base64.Encode base64.StdEncoding
              (rev (base64.Encode base64.StdEncoding Demo.enterprisePayload)))
           (firstn 40 (base64.Encode base64.StdEncoding
                         (rev (base64.Encode base64.StdEncoding Demo.enterprisePayload)))
            ++ [x0d; x0a]
            ++ skipn 40 (base64.Encode base64.StdEncoding
                           (rev (base64.Encode base64.StdEncoding Demo.enterprisePayload)))));
    vm_compute; reflexivity.
Defined.

Lemma issued_credential_is_verified_witness :
  let env := Demo.env [] in
  let signature := rev (base64.Encode base64.StdEncoding Demo.enterprisePayload) in
  validateLicense env (Demo.config "" "")
    (Cases.space ++ credentialOf Demo.enterprisePayload signature ++ [x0a])
  = match rsa_VerifyPKCS1v15 env Demo.rsaKey
            (sha256_Sum256 env (base64.Encode base64.StdEncoding Demo.enterprisePayload))
            signature with
    | Some e => Ret (zeroLicense, Some (SignatureInvalid e))
    | None =>
        match json_Unmarshal env Demo.enterprisePayload zeroLicense with
        | (_, Some e) => Ret (zeroLicense, Some (DecodeError e))
        | (license, None) => Ret (license, None)
        end
    end.
Proof.
  intros env signature.
  apply (issued_credential_is_verified env (Demo.config "" "") Demo.rsaBlock Demo.rsaKey
           Cases.space [x0a] Demo.enterprisePayload signature).
  - reflexivity.
  - reflexivity.
  - repeat constructor.
  - repeat constructor.
Defined.

Lemma RegisterService_reads_one_file_witness :
  let c := Demo.config "" "/opt/blank.license" in
  let s2 := {| logs := [debugEntry "Loading Redpanda Enterprise license from explicit file path";
                        errorEntry (LicenseInvalid splitError)];
               reads := ["/opt/blank.license"]; ticks := 0;
               shared := Some {| loadedLicense := Some zeroLicense; conf := c |} |} in
  RegisterService (Demo.env Cases.files) c initialState = Ret (tt, s2) /\
  reads s2 = reads initialState ++ ["/opt/blank.license"].
Proof.
  intros c s2.
  assert (RegisterService (Demo.env Cases.files) c initialState = Ret (tt, s2)) as H
      by (vm_compute; reflexivity).
  split; [exact H|].
  exact (RegisterService_reads_one_file (Demo.env Cases.files) c initialState s2 H).
Defined.
